(** * Channel negotiation and reconnecting socket of the Closure Library

    A shallow embedding of three classes of closure/goog/net:

    - [goog.net.WebSocket] (the reconnecting socket wrapper that lives in
      src/closure/goog/net/iframeloadmonitor.js),
    - [goog.net.BrowserTestChannel]
      (src/closure/goog/net/browsertestchannel.js), and
    - [goog.net.IframeLoadMonitor]
      (src/closure/goog/net/iframeloadmonitor.js),

    together with the properties of their state machines.

    JavaScript methods mutate [this], call collaborators and may throw.
    They are embedded as computations in a small monad that threads the
    mutable state, collects the calls made to collaborators as a list of
    effects (in program order) and propagates exceptions.  A mutation or
    effect that happened before a [throw] stays, as in JavaScript. *)

From Stdlib Require Import ZArith List Bool String Lia.
From stdpp Require Import base option list gmap strings pretty.

Local Open Scope string_scope.
Local Open Scope Z_scope.
Local Open Scope list_scope.

(** ** The method monad *)

(** Exceptions the embedded code can raise. *)
Inductive exn : Type :=
| AssertionError (msg : string)   (* goog.asserts.assert failed *)
| TypeError (msg : string).       (* property access on null/undefined *)

Inductive outcome (A : Type) : Type :=
| Ret (a : A)
| Throw (x : exn).
Arguments Ret {A} a.
Arguments Throw {A} x.

Section MethodMonad.
Context {St Ef : Type}.

Definition M (A : Type) : Type := St -> outcome A * St * list Ef.

Definition ret {A} (a : A) : M A := fun s => (Ret a, s, []).

Definition bind {A B} (m : M A) (k : A -> M B) : M B :=
  fun s =>
    match m s with
    | (Ret a, s1, l1) =>
        match k a s1 with
        | (r, s2, l2) => (r, s2, l1 ++ l2)
        end
    | (Throw x, s1, l1) => (Throw x, s1, l1)
    end.

Definition get : M St := fun s => (Ret s, s, []).
Definition modify (f : St -> St) : M unit := fun s => (Ret tt, f s, []).
Definition emit (e : Ef) : M unit := fun s => (Ret tt, s, [e]).
Definition throw {A} (x : exn) : M A := fun s => (Throw x, s, []).

(** [goog.asserts.assert(cond, msg)] with assertions enabled. *)
Definition assert (cond : bool) (msg : string) : M unit :=
  if cond then ret tt else throw (AssertionError msg).

Definition result {A} (r : outcome A * St * list Ef) : outcome A := r.1.1.
Definition final {A} (r : outcome A * St * list Ef) : St := r.1.2.
Definition effects {A} (r : outcome A * St * list Ef) : list Ef := r.2.
End MethodMonad.

Arguments M : clear implicits.

Declare Scope js_scope.
Delimit Scope js_scope with js.
Notation "'let!' x ':=' m 'in' k" := (bind m (fun x => k))
  (at level 10, x name, m at level 100, k at level 200) : js_scope.
Notation "m ;; k" := (bind m (fun _ => k))
  (at level 100, k at level 200, right associativity) : js_scope.

(** Run one entry point to its end, as the event loop does: an exception
    it lets escape is reported (as the effect [uncaught x]) and the
    mutations made before it stay. *)
Definition entry {St Ef} (uncaught : exn -> Ef) (m : M St Ef unit) (s : St)
  : St * list Ef :=
  match m s with
  | (Ret _, s', l) => (s', l)
  | (Throw x, s', l) => (s', l ++ [uncaught x])
  end.

(** Turns of an event loop, one per action; [None] as soon as an action
    cannot happen in the state reached. *)
Fixpoint run_loop {St Ac Ef} (step : Ac -> St -> option (St * list Ef))
    (acts : list Ac) (s : St) : option (St * list Ef) :=
  match acts with
  | [] => Some (s, [])
  | a :: acts =>
      match step a s with
      | Some (s1, l1) =>
          match run_loop step acts s1 with
          | Some (s2, l2) => Some (s2, l1 ++ l2)
          | None => None
          end
      | None => None
      end
  end.

(** Number of effects of a trace that satisfy a boolean test. *)
Definition count_eff {Ef} (p : Ef -> bool) (l : list Ef) : nat :=
  length (filter (fun e => p e = true) l).

(** Three shapes of facts about a method. *)
Section MethodProperties.
Context {St Ef : Type}.

(** [m] leaves the observation [obs] of the state as it found it. *)
Definition keeps {X A} (obs : St -> X) (m : M St Ef A) : Prop :=
  forall s, obs (final (m s)) = obs s.

(** Every effect of [m] satisfies [P]. *)
Definition emits_only {A} (P : Ef -> Prop) (m : M St Ef A) : Prop :=
  forall s, Forall P (effects (m s)).

(** [m] takes states that satisfy [P] to states that satisfy [P]. *)
Definition preserves {A} (P : St -> Prop) (m : M St Ef A) : Prop :=
  forall s, P s -> P (final (m s)).
End MethodProperties.

(** ** goog.net.WebSocket *)

Module WebSocket.

(** [goog.net.WebSocket.ReadyState_] *)
Inductive ReadyState_ : Type := CONNECTING | OPEN | CLOSING | CLOSED.

Definition ReadyState_eqb (a b : ReadyState_) : bool :=
  match a, b with
  | CONNECTING, CONNECTING | OPEN, OPEN | CLOSING, CLOSING | CLOSED, CLOSED => true
  | _, _ => false
  end.

(** [goog.net.WebSocket.BinaryType] *)
Inductive BinaryType : Type := ARRAY_BUFFER | BLOB.

(** [goog.net.WebSocket.Options]: every field may be left undefined. *)
Record Options : Type := mkOptions {
  autoReconnect : option bool;
  getNextReconnect : option (Z -> Z);
  binaryType : option BinaryType
}.

(** [goog.net.WebSocket.EXPONENTIAL_BACKOFF_CEILING_] *)
Definition EXPONENTIAL_BACKOFF_CEILING_ : Z := 60 * 1000.

(** [goog.net.WebSocket.EXPONENTIAL_BACKOFF_].  The attempt counter only
    takes the values 0, 1, 2, ...; on these [Math.pow(2, attempt) * 1000]
    is the exact integer as long as it is finite, and once it overflows to
    Infinity [Math.min] returns the ceiling, as it does for the integer. *)
Definition EXPONENTIAL_BACKOFF_ (attempt : Z) : Z :=
  let time := 2 ^ attempt * 1000 in
  Z.min time EXPONENTIAL_BACKOFF_CEILING_.

(** The fields of a [goog.net.WebSocket] instance.  [webSocket_] holds the
    handle of the browser transport object, [reconnectTimer_] the id that
    [goog.Timer.callOnce] returned. *)
Record socket : Type := mkSocket {
  autoReconnect_ : bool;
  getNextReconnect_ : Z -> Z;
  binaryType_ : BinaryType;
  nextReconnect_ : Z;
  webSocket_ : option nat;
  url_ : option string;
  protocol_ : option string;
  closeExpected_ : bool;
  reconnectAttempt_ : Z;
  reconnectTimer_ : option nat
}.

Definition set_nextReconnect_ (v : Z) (s : socket) : socket :=
  mkSocket (autoReconnect_ s) (getNextReconnect_ s) (binaryType_ s) v
    (webSocket_ s) (url_ s) (protocol_ s) (closeExpected_ s)
    (reconnectAttempt_ s) (reconnectTimer_ s).
Definition set_webSocket_ (v : option nat) (s : socket) : socket :=
  mkSocket (autoReconnect_ s) (getNextReconnect_ s) (binaryType_ s)
    (nextReconnect_ s) v (url_ s) (protocol_ s) (closeExpected_ s)
    (reconnectAttempt_ s) (reconnectTimer_ s).
Definition set_url_ (v : option string) (s : socket) : socket :=
  mkSocket (autoReconnect_ s) (getNextReconnect_ s) (binaryType_ s)
    (nextReconnect_ s) (webSocket_ s) v (protocol_ s) (closeExpected_ s)
    (reconnectAttempt_ s) (reconnectTimer_ s).
Definition set_protocol_ (v : option string) (s : socket) : socket :=
  mkSocket (autoReconnect_ s) (getNextReconnect_ s) (binaryType_ s)
    (nextReconnect_ s) (webSocket_ s) (url_ s) v (closeExpected_ s)
    (reconnectAttempt_ s) (reconnectTimer_ s).
Definition set_closeExpected_ (v : bool) (s : socket) : socket :=
  mkSocket (autoReconnect_ s) (getNextReconnect_ s) (binaryType_ s)
    (nextReconnect_ s) (webSocket_ s) (url_ s) (protocol_ s) v
    (reconnectAttempt_ s) (reconnectTimer_ s).
Definition set_reconnectAttempt_ (v : Z) (s : socket) : socket :=
  mkSocket (autoReconnect_ s) (getNextReconnect_ s) (binaryType_ s)
    (nextReconnect_ s) (webSocket_ s) (url_ s) (protocol_ s)
    (closeExpected_ s) v (reconnectTimer_ s).
Definition set_reconnectTimer_ (v : option nat) (s : socket) : socket :=
  mkSocket (autoReconnect_ s) (getNextReconnect_ s) (binaryType_ s)
    (nextReconnect_ s) (webSocket_ s) (url_ s) (protocol_ s)
    (closeExpected_ s) (reconnectAttempt_ s) v.

(** The constructor.  [opt_params.autoReconnect != false] is true for an
    undefined field; [a || b] takes [b] for an undefined [a].  The
    prototype supplies the initial values of the other fields. *)
Definition new (opt_params : option Options) : socket :=
  let opt_params := default (mkOptions None None None) opt_params in
  let autoReconnect_ := negb (bool_decide (autoReconnect opt_params = Some false)) in
  let getNextReconnect_ := default EXPONENTIAL_BACKOFF_ (getNextReconnect opt_params) in
  let binaryType_ := default BLOB (binaryType opt_params) in
  let reconnectAttempt_ := 0 in
  mkSocket autoReconnect_ getNextReconnect_ binaryType_
    (getNextReconnect_ reconnectAttempt_)
    None None None false reconnectAttempt_ None.

(** *** The platform the socket runs on *)

(** A browser [WebSocket] object. *)
Record transport : Type := mkTransport {
  tr_url : option string;
  tr_protocol : option string;
  tr_binaryType : BinaryType;
  readyState : ReadyState_
}.

(** A pending [goog.Timer.callOnce] timer.  The only listener the socket
    ever registers is [goog.bind(this.open, this, url, protocol)], so a
    timer is its delay and the two bound arguments. *)
Record pending : Type := mkPending {
  tm_delay : Z;
  tm_url : option string;
  tm_protocol : option string
}.

(** Modelled from the spec: the transport primitive and the scheduler the
    socket is given (goog.Timer and the browser's WebSocket are not
    among the sources).  The scheduler is
    [scheduleOnce(delayMs, fn) -> cancelToken]: a timer is pending from
    [callOnce] until it fires or is cleared; tokens are never reused. *)
Record world : Type := mkWorld {
  has_WebSocket : bool;               (* goog.global['WebSocket'] *)
  transports : gmap nat transport;
  next_handle : nat;
  timers : gmap nat pending;
  next_timer : nat
}.

Definition set_transports (v : gmap nat transport) (w : world) : world :=
  mkWorld (has_WebSocket w) v (next_handle w) (timers w) (next_timer w).
Definition set_next_handle (v : nat) (w : world) : world :=
  mkWorld (has_WebSocket w) (transports w) v (timers w) (next_timer w).
Definition set_timers (v : gmap nat pending) (w : world) : world :=
  mkWorld (has_WebSocket w) (transports w) (next_handle w) v (next_timer w).
Definition set_next_timer (v : nat) (w : world) : world :=
  mkWorld (has_WebSocket w) (transports w) (next_handle w) (timers w) v.

Definition init_world : world := mkWorld true ∅ 0%nat ∅ 0%nat.

(** The payload of a transport close event. *)
Record CloseEvent : Type := mkCloseEvent {
  code : Z;
  reason : string;
  wasClean : bool
}.

(** What the socket does to the outside, in program order. *)
Inductive effect : Type :=
| DispatchOpened
| DispatchClosed (code : Z) (reason : string) (wasClean : bool)
| DispatchMessage (data : string)
| DispatchError (data : string)
| NewTransport (h : nat) (url protocol : option string)
| TransportClose (h : nat)
| TransportSend (h : nat) (msg : string)
| TimerCallOnce (id : nat) (delay : Z) (url protocol : option string)
| TimerClear (id : nat)
| Uncaught (x : exn).

(** The socket together with its platform. *)
Record sys : Type := mkSys { sock : socket; env : world }.

Definition JS (A : Type) : Type := M sys effect A.

Definition this : JS socket := fun s => (Ret (sock s), s, []).
Definition platform : JS world := fun s => (Ret (env s), s, []).
Definition set (f : socket -> socket) : JS unit :=
  modify (fun s => mkSys (f (sock s)) (env s)).
Definition set_env (f : world -> world) : JS unit :=
  modify (fun s => mkSys (sock s) (f (env s))).

Local Open Scope js_scope.

(** Modelled from the spec: [goog.Timer.callOnce] with the listener
    [goog.bind(this.open, this, url, protocol)] registers a pending timer
    under a fresh token and returns the token. *)
Definition Timer_callOnce (url protocol : option string) (delay : Z) : JS nat :=
  fun s =>
    let id := next_timer (env s) in
    (Ret id,
     mkSys (sock s)
       (set_next_timer (S id)
          (set_timers (<[id := mkPending delay url protocol]> (timers (env s))) (env s))),
     [TimerCallOnce id delay url protocol]).

(** Modelled from the spec: [goog.Timer.clear] cancels the timer with the
    given token if it is still pending. *)
Definition Timer_clear (id : nat) : JS unit :=
  set_env (fun w => set_timers (delete id (timers w)) w) ;;
  emit (TimerClear id).

(** Modelled from the spec: [new WebSocket(url, protocol)] of the browser
    creates a transport in state CONNECTING (binary type "blob"). *)
Definition new_WebSocket (url protocol : option string) : JS nat :=
  fun s =>
    let h := next_handle (env s) in
    (Ret h,
     mkSys (sock s)
       (set_next_handle (S h)
          (set_transports
             (<[h := mkTransport url protocol BLOB CONNECTING]> (transports (env s)))
             (env s))),
     [NewTransport h url protocol]).

Definition with_binaryType (b : BinaryType) (tr : transport) : transport :=
  mkTransport (tr_url tr) (tr_protocol tr) b (readyState tr).
Definition with_readyState (r : ReadyState_) (tr : transport) : transport :=
  mkTransport (tr_url tr) (tr_protocol tr) (tr_binaryType tr) r.

Definition set_readyState (h : nat) (r : ReadyState_) (w : world) : world :=
  set_transports (alter (with_readyState r) h (transports w)) w.

(** Modelled from the spec: the browser's [WebSocket.close()] starts the
    closing handshake unless the transport is closing or closed already. *)
Definition transport_close (h : nat) : JS unit :=
  set_env (fun w =>
    set_transports
      (alter (fun tr =>
                match readyState tr with
                | CONNECTING | OPEN => with_readyState CLOSING tr
                | CLOSING | CLOSED => tr
                end) h (transports w)) w) ;;
  emit (TransportClose h).

(** JavaScript truthiness of a [string|undefined]. *)
Definition truthy_str (o : option string) : bool :=
  match o with
  | Some s => negb (String.eqb s EmptyString)
  | None => false
  end.

(** [goog.net.WebSocket.prototype.clearReconnectTimer_] *)
Definition clearReconnectTimer_ : JS unit :=
  let! s := this in
  match reconnectTimer_ s with
  | Some id => Timer_clear id
  | None => ret tt
  end ;;
  set (set_reconnectTimer_ None).

(** [goog.net.WebSocket.prototype.isOpen] *)
Definition isOpen : JS bool :=
  let! s := this in
  let! w := platform in
  ret match webSocket_ s with
      | Some h =>
          match transports w !! h with
          | Some tr => ReadyState_eqb (readyState tr) OPEN
          | None => false
          end
      | None => false
      end.

(** [goog.net.WebSocket.prototype.open].  The four handlers it installs
    on the transport are bound to this socket; [step] below delivers the
    transport's events to them. *)
Definition open (url opt_protocol : option string) : JS unit :=
  let! w := platform in
  assert (has_WebSocket w) "This browser does not support WebSocket" ;;
  let! is_open := isOpen in
  assert (negb is_open) "The WebSocket is already open" ;;
  clearReconnectTimer_ ;;
  set (set_url_ url) ;;
  set (set_protocol_ opt_protocol) ;;
  let! s := this in
  let! h := (if truthy_str (protocol_ s)
             then new_WebSocket (url_ s) (protocol_ s)
             else new_WebSocket (url_ s) None) in
  set (set_webSocket_ (Some h)) ;;
  set_env (fun w =>
    set_transports (alter (with_binaryType (binaryType_ s)) h (transports w)) w).

(** [goog.net.WebSocket.prototype.close] *)
Definition close : JS unit :=
  clearReconnectTimer_ ;;
  let! s := this in
  match webSocket_ s with
  | Some h =>
      set (set_closeExpected_ true) ;;
      transport_close h ;;
      set (set_webSocket_ None)
  | None => ret tt
  end.

(** [goog.net.WebSocket.prototype.send] *)
Definition send (message : string) : JS unit :=
  let! is_open := isOpen in
  assert is_open "Cannot send without an open socket" ;;
  let! s := this in
  match webSocket_ s with
  | Some h => emit (TransportSend h message)
  | None => throw (TypeError "this.webSocket_ is null")
  end.

(** [goog.net.WebSocket.prototype.onOpen_] *)
Definition onOpen_ : JS unit :=
  emit DispatchOpened ;;
  set (set_reconnectAttempt_ 0) ;;
  let! s := this in
  set (set_nextReconnect_ (getNextReconnect_ s (reconnectAttempt_ s))).

(** [goog.net.WebSocket.prototype.onClose_] (logging left out). *)
Definition onClose_ (event : CloseEvent) : JS unit :=
  emit (DispatchClosed (code event) (reason event) (wasClean event)) ;;
  set (set_webSocket_ None) ;;
  let! s := this in
  (if closeExpected_ s then
     set (set_url_ None) ;;
     set (set_protocol_ None)
   else
     if autoReconnect_ s then
       let! id := Timer_callOnce (url_ s) (protocol_ s) (nextReconnect_ s) in
       set (set_reconnectTimer_ (Some id)) ;;
       set (fun s => set_reconnectAttempt_ (reconnectAttempt_ s + 1) s) ;;
       let! s := this in
       set (set_nextReconnect_ (getNextReconnect_ s (reconnectAttempt_ s)))
     else ret tt) ;;
  set (set_closeExpected_ false).

(** [goog.net.WebSocket.prototype.onMessage_] *)
Definition onMessage_ (data : string) : JS unit :=
  emit (DispatchMessage data).

(** [goog.net.WebSocket.prototype.onError_] *)
Definition onError_ (data : string) : JS unit :=
  emit (DispatchError data).

(** *** The event loop around one socket *)

(** What can happen to a socket: its owner calls a method, one of the
    transports it created raises an event, or a timer it scheduled fires.
    Listeners of the dispatched events only observe. *)
Inductive action : Type :=
| CallOpen (url : string) (opt_protocol : option string)
| CallClose
| CallSend (message : string)
| TransportOpens (h : nat)
| TransportCloses (h : nat) (event : CloseEvent)
| TransportMessage (h : nat) (data : string)
| TransportError (h : nat) (data : string)
| TimerFires (id : nat).

(** One turn of the event loop; [None] when the action cannot happen (an
    event of a transport that does not exist or is past that event, a
    timer that is not pending). *)
Definition step (a : action) (s : sys) : option (sys * list effect) :=
  match a with
  | CallOpen url opt_protocol => Some (entry Uncaught (open (Some url) opt_protocol) s)
  | CallClose => Some (entry Uncaught close s)
  | CallSend message => Some (entry Uncaught (send message) s)
  | TransportOpens h =>
      match transports (env s) !! h with
      | Some tr =>
          if ReadyState_eqb (readyState tr) CONNECTING
          then Some (entry Uncaught (set_env (set_readyState h OPEN) ;; onOpen_) s)
          else None
      | None => None
      end
  | TransportCloses h event =>
      match transports (env s) !! h with
      | Some tr =>
          if ReadyState_eqb (readyState tr) CLOSED
          then None
          else Some (entry Uncaught (set_env (set_readyState h CLOSED) ;; onClose_ event) s)
      | None => None
      end
  | TransportMessage h data =>
      match transports (env s) !! h with
      | Some tr =>
          if ReadyState_eqb (readyState tr) OPEN || ReadyState_eqb (readyState tr) CLOSING
          then Some (entry Uncaught (onMessage_ data) s)
          else None
      | None => None
      end
  | TransportError h data =>
      match transports (env s) !! h with
      | Some tr =>
          if ReadyState_eqb (readyState tr) CLOSED
          then None
          else Some (entry Uncaught (onError_ data) s)
      | None => None
      end
  | TimerFires id =>
      match timers (env s) !! id with
      | Some p =>
          Some (entry Uncaught (set_env (fun w => set_timers (delete id (timers w)) w) ;;
                       open (tm_url p) (tm_protocol p)) s)
      | None => None
      end
  end.

Definition run : list action -> sys -> option (sys * list effect) :=
  run_loop step.

(** A freshly constructed socket on a fresh platform. *)
Definition start (opt_params : option Options) : sys :=
  mkSys (new opt_params) init_world.

(** The delays handed to [goog.Timer.callOnce], in the order of the calls. *)
Definition scheduled_delays (l : list effect) : list Z :=
  omap (fun e => match e with TimerCallOnce _ delay _ _ => Some delay | _ => None end) l.

(** *** Vocabulary for the properties of the socket *)

(** What decides a reconnect: the configuration, the flag, the counter
    and the delay computed from it. *)
Definition policy (s : sys) : bool * (Z -> Z) * bool * Z * Z :=
  (autoReconnect_ (sock s), getNextReconnect_ (sock s), closeExpected_ (sock s),
   reconnectAttempt_ (sock s), nextReconnect_ (sock s)).

Definition no_callOnce (e : effect) : Prop :=
  match e with
  | TimerCallOnce _ _ _ _ => False
  | _ => True
  end.

(** A transport-close event. *)
Definition is_close (a : action) : bool :=
  match a with
  | TransportCloses _ _ => true
  | _ => false
  end.


(** An action that calls [open]: the owner does, or a reconnect timer. *)
Definition is_open (a : action) : bool :=
  match a with
  | CallOpen _ _ | TimerFires _ => true
  | _ => false
  end.

(** The actions that leave a streak of unexpected closes a streak: any
    but a deliberate [close()] and a transport that opens. *)
Definition keeps_streak (a : action) : bool :=
  match a with
  | CallClose | TransportOpens _ => false
  | _ => true
  end.


(** Timer [id] has been handed out and is not pending. *)
Definition retired (id : nat) (s : sys) : Prop :=
  timers (env s) !! id = None /\ (id < next_timer (env s))%nat.

(** Every pending timer carries a token that has been handed out. *)
Definition tokens_fresh (s : sys) : Prop :=
  forall k p, timers (env s) !! k = Some p -> (k < next_timer (env s))%nat.


(** *** Sample runs *)

(** Where a run ends and what it emits (nothing happens if the run
    cannot happen). *)
Definition state_after (acts : list action) (s : sys) : sys :=
  match run acts s with
  | Some (s', _) => s'
  | None => s
  end.

Definition trace_of (acts : list action) (s : sys) : list effect :=
  match run acts s with
  | Some (_, l) => l
  | None => []
  end.

(** The close event of a connection that was lost (code 1006). *)
Definition lost : CloseEvent := mkCloseEvent 1006 EmptyString false.

(** Three failed connection attempts in a row, each reconnect timer
    firing before the next failure. *)
Definition three_failures : list action :=
  [CallOpen "ws://host" None; TransportCloses 0 lost;
   TimerFires 0; TransportCloses 1 lost;
   TimerFires 1; TransportCloses 2 lost].

(** A connection attempt fails and a reconnect is scheduled. *)
Definition one_failure : list action :=
  [CallOpen "ws://host" None; TransportCloses 0 lost].



(** *** Further vocabulary *)

(** The configuration of the backoff and where it stands. *)
Definition schedule (s : sys) : bool * (Z -> Z) * Z * Z :=
  (autoReconnect_ (sock s), getNextReconnect_ (sock s),
   reconnectAttempt_ (sock s), nextReconnect_ (sock s)).

(** The stored delay is the one the backoff function gives for the
    attempt counter, and the counter is not negative. *)
Definition in_step (s : sys) : Prop :=
  nextReconnect_ (sock s) = getNextReconnect_ (sock s) (reconnectAttempt_ (sock s)) /\
  0 <= reconnectAttempt_ (sock s).

(** Auto-reconnect is off and no timer is pending. *)
Definition never_reconnects (s : sys) : Prop :=
  autoReconnect_ (sock s) = false /\ timers (env s) = ∅.

(** A connection that was established is lost, and a reconnect fails too. *)
Definition lost_after_open : list action :=
  [CallOpen "ws://host" (Some "chat"); TransportOpens 0; TransportCloses 0 lost;
   TimerFires 0; TransportCloses 1 lost].

(** A backoff that waits 250 ms more with every attempt. *)
Definition linear_backoff (attempt : Z) : Z := 250 * (attempt + 1).

End WebSocket.

(** ** goog.net.BrowserTestChannel *)

Module BrowserTestChannel.

(** [goog.net.BrowserTestChannel.State_] *)
Inductive State_ : Type := INIT | CHECKING_BLOCKED | CONNECTION_TESTING.

Definition State_eqb (a b : State_) : bool :=
  match a, b with
  | INIT, INIT | CHECKING_BLOCKED, CHECKING_BLOCKED
  | CONNECTION_TESTING, CONNECTION_TESTING => true
  | _, _ => false
  end.

(** The values [INIT: 0], [CHECKING_BLOCKED: 1], [CONNECTION_TESTING: 2]. *)
Definition State_number (a : State_) : string :=
  match a with
  | INIT => "0"
  | CHECKING_BLOCKED => "1"
  | CONNECTION_TESTING => "2"
  end.

Definition BLOCKED_TIMEOUT_ : Z := 5000.
Definition BLOCKED_RETRIES_ : Z := 3.
Definition BLOCKED_PAUSE_BETWEEN_RETRIES_ : Z := 2000.
Definition MIN_TIME_EXPECTED_BETWEEN_DATA_ : Z := 500.

(** The JavaScript values a response parser can hand back, and with them
    the values the two prefixes can take. *)
#[local] Unset Elimination Schemes.
Inductive jsval : Type :=
| JUndefined
| JNull
| JBool (b : bool)
| JNum (n : Z)
| JStr (s : string)
| JArr (items : list jsval)
| JObj (props : list (string * jsval)).
#[local] Set Elimination Schemes.

(** JavaScript truthiness. *)
Definition truthy (v : jsval) : bool :=
  match v with
  | JUndefined | JNull => false
  | JBool b => b
  | JNum n => negb (n =? 0)
  | JStr s => negb (String.eqb s EmptyString)
  | JArr _ | JObj _ => true
  end.

Fixpoint assoc (k : string) (props : list (string * jsval)) : jsval :=
  match props with
  | [] => JUndefined
  | (k', v) :: props => if String.eqb k k' then v else assoc k props
  end.

(** [v[i]] for a constant index: [None] is the TypeError that reading a
    property of [null] or [undefined] raises. *)
Definition js_index (v : jsval) (i : nat) : option jsval :=
  match v with
  | JUndefined | JNull => None
  | JBool _ | JNum _ => Some JUndefined
  | JStr s =>
      Some match String.get i s with
           | Some a => JStr (String a EmptyString)
           | None => JUndefined
           end
  | JArr items => Some (nth i items JUndefined)
  | JObj props => Some (assoc (pretty i) props)
  end.

(** [null] and [undefined] timestamps coerce to 0 under [-]. *)
Definition to_number (t : option Z) : Z := default 0 t.

(** What [goog.string.Parser.parse] does on a text: it throws or returns. *)
Inductive parse_result : Type :=
| ParseThrows
| Parsed (v : jsval).

(** The member of [goog.net.ChannelRequest.Error] the test channel names,
    and the others by their code. *)
Inductive Error : Type :=
| BAD_DATA
| OtherError (code : Z).

(** The members of [goog.net.browserchannelinternal.stats.Stat] in use. *)
Inductive Stat : Type :=
| TEST_STAGE_ONE_START | TEST_STAGE_ONE_FAILED
| TEST_STAGE_TWO_START | TEST_STAGE_TWO_FAILED
| TEST_STAGE_TWO_DATA_ONE | TEST_STAGE_TWO_DATA_TWO | TEST_STAGE_TWO_DATA_BOTH
| CHANNEL_BLOCKED | PROXY | NOPROXY.

(** [goog.net.browserchannelinternal.ServerReachability] *)
Inductive ServerReachability : Type :=
| REQUEST_MADE | REQUEST_SUCCEEDED | REQUEST_FAILED.

(** A [goog.Uri] as far as the test channel shapes it. *)
Record Uri : Type := mkUri {
  uri_base : string;
  uri_params : list (string * string);
  uri_unique : bool
}.

Definition setParameterValues (key value : string) (u : Uri) : Uri :=
  mkUri (uri_base u)
    ((key, value) :: filter (fun kv => negb (String.eqb kv.1 key)) (uri_params u))
    (uri_unique u).

Definition makeUnique (u : Uri) : Uri :=
  mkUri (uri_base u) (uri_params u) true.

(** The owner of the test channel, [goog.net.BrowserChannel], through the
    methods the test channel reads from it; the methods it reports to are
    effects below.  (BrowserChannel itself is not among the sources.) *)
Record BrowserChannel : Type := mkBrowserChannel {
  getForwardChannelUri : option string -> Uri;
  getBackChannelUri : jsval -> option string -> Uri;
  createDataUri : jsval -> string -> Uri;
  getFirstTestResults : option (list jsval);
  getSecondTestResults : option bool;
  correctHostPrefix : jsval -> jsval
}.

(** The fields of a [goog.net.BrowserTestChannel] instance. *)
Record channel : Type := mkChannel {
  channel_ : BrowserChannel;
  parser_ : string -> parse_result;
  extraHeaders_ : option (list (string * string));
  request_ : option nat;
  receivedIntermediateResult_ : bool;
  startTime_ : option Z;
  firstTime_ : option Z;
  lastTime_ : option Z;
  path_ : option string;
  state_ : option State_;
  lastStatusCode_ : Z;
  hostPrefix_ : jsval;
  blockedPrefix_ : jsval
}.

Definition set_parser_ (v : string -> parse_result) (c : channel) : channel :=
  mkChannel (channel_ c) v (extraHeaders_ c) (request_ c)
    (receivedIntermediateResult_ c) (startTime_ c) (firstTime_ c)
    (lastTime_ c) (path_ c) (state_ c) (lastStatusCode_ c) (hostPrefix_
    c) (blockedPrefix_ c).
Definition set_extraHeaders_ (v : option (list (string * string))) (c : channel) : channel :=
  mkChannel (channel_ c) (parser_ c) v (request_ c)
    (receivedIntermediateResult_ c) (startTime_ c) (firstTime_ c)
    (lastTime_ c) (path_ c) (state_ c) (lastStatusCode_ c) (hostPrefix_
    c) (blockedPrefix_ c).
Definition set_request_ (v : option nat) (c : channel) : channel :=
  mkChannel (channel_ c) (parser_ c) (extraHeaders_ c) v
    (receivedIntermediateResult_ c) (startTime_ c) (firstTime_ c)
    (lastTime_ c) (path_ c) (state_ c) (lastStatusCode_ c) (hostPrefix_
    c) (blockedPrefix_ c).
Definition set_receivedIntermediateResult_ (v : bool) (c : channel) : channel :=
  mkChannel (channel_ c) (parser_ c) (extraHeaders_ c) (request_ c) v
    (startTime_ c) (firstTime_ c) (lastTime_ c) (path_ c) (state_ c)
    (lastStatusCode_ c) (hostPrefix_ c) (blockedPrefix_ c).
Definition set_startTime_ (v : option Z) (c : channel) : channel :=
  mkChannel (channel_ c) (parser_ c) (extraHeaders_ c) (request_ c)
    (receivedIntermediateResult_ c) v (firstTime_ c) (lastTime_ c)
    (path_ c) (state_ c) (lastStatusCode_ c) (hostPrefix_ c)
    (blockedPrefix_ c).
Definition set_firstTime_ (v : option Z) (c : channel) : channel :=
  mkChannel (channel_ c) (parser_ c) (extraHeaders_ c) (request_ c)
    (receivedIntermediateResult_ c) (startTime_ c) v (lastTime_ c)
    (path_ c) (state_ c) (lastStatusCode_ c) (hostPrefix_ c)
    (blockedPrefix_ c).
Definition set_lastTime_ (v : option Z) (c : channel) : channel :=
  mkChannel (channel_ c) (parser_ c) (extraHeaders_ c) (request_ c)
    (receivedIntermediateResult_ c) (startTime_ c) (firstTime_ c) v
    (path_ c) (state_ c) (lastStatusCode_ c) (hostPrefix_ c)
    (blockedPrefix_ c).
Definition set_path_ (v : option string) (c : channel) : channel :=
  mkChannel (channel_ c) (parser_ c) (extraHeaders_ c) (request_ c)
    (receivedIntermediateResult_ c) (startTime_ c) (firstTime_ c)
    (lastTime_ c) v (state_ c) (lastStatusCode_ c) (hostPrefix_ c)
    (blockedPrefix_ c).
Definition set_state_ (v : option State_) (c : channel) : channel :=
  mkChannel (channel_ c) (parser_ c) (extraHeaders_ c) (request_ c)
    (receivedIntermediateResult_ c) (startTime_ c) (firstTime_ c)
    (lastTime_ c) (path_ c) v (lastStatusCode_ c) (hostPrefix_ c)
    (blockedPrefix_ c).
Definition set_lastStatusCode_ (v : Z) (c : channel) : channel :=
  mkChannel (channel_ c) (parser_ c) (extraHeaders_ c) (request_ c)
    (receivedIntermediateResult_ c) (startTime_ c) (firstTime_ c)
    (lastTime_ c) (path_ c) (state_ c) v (hostPrefix_ c) (blockedPrefix_
    c).
Definition set_hostPrefix_ (v : jsval) (c : channel) : channel :=
  mkChannel (channel_ c) (parser_ c) (extraHeaders_ c) (request_ c)
    (receivedIntermediateResult_ c) (startTime_ c) (firstTime_ c)
    (lastTime_ c) (path_ c) (state_ c) (lastStatusCode_ c) v
    (blockedPrefix_ c).
Definition set_blockedPrefix_ (v : jsval) (c : channel) : channel :=
  mkChannel (channel_ c) (parser_ c) (extraHeaders_ c) (request_ c)
    (receivedIntermediateResult_ c) (startTime_ c) (firstTime_ c)
    (lastTime_ c) (path_ c) (state_ c) (lastStatusCode_ c) (hostPrefix_
    c) v.

(** The constructor; [parser] stands for the
    [new goog.json.NativeJsonProcessor()] it installs.  The prototype
    supplies the initial values of the other fields. *)
Definition new (owner : BrowserChannel) (parser : string -> parse_result) : channel :=
  mkChannel owner parser None None false None None None None None (-1)
    JNull JNull.

(** Modelled from the spec: a request object of the HTTP request issuer
    ([goog.net.ChannelRequest], not among the sources), with what the
    test channel reads from it.  The issuer records the status before it
    calls back, supports cancellation, and calls back neither for a
    cancelled nor for a completed request. *)
Record ChannelRequest : Type := mkChannelRequest {
  getLastStatusCode : Z;
  getSuccess : bool;
  getLastError : option Error;
  rq_done : bool
}.

Definition cancelled (rq : ChannelRequest) : ChannelRequest :=
  mkChannelRequest (getLastStatusCode rq) (getSuccess rq) (getLastError rq) true.

(** What the test channel does to the outside, in program order. *)
Inductive effect : Type :=
| Debug (msg : string)
| DumpException
| NotifyStatEvent (stat : Stat)
| CreateChannelRequest (id : nat)
| SetExtraHeaders (id : nat) (headers : option (list (string * string)))
| XmlHttpGet (id : nat) (uri : Uri) (decodeChunks : bool) (hostPrefix : jsval)
    (noClose : bool)
| TridentGet (id : nat) (uri : Uri) (usingSecondaryDomain : bool)
| Cancel (id : nat)
| TestLoadImageWithRetries (url : Uri) (timeout retries pauseBetweenRetries : Z)
| NotifyServerReachabilityEvent (reachabilityType : ServerReachability)
| TestConnectionFinished (useChunked : bool)
| TestConnectionFailure (errorCode : option Error)
| TestConnectionBlocked
| Uncaught (x : exn).

(** The test channel with the request objects it created (shared with the
    request issuer) and the number of image probes still to call back. *)
Record machine : Type := mkMachine {
  self : channel;
  requests : gmap nat ChannelRequest;
  next_request : nat;
  probes : nat
}.

Definition JS (A : Type) : Type := M machine effect A.

Definition this : JS channel := fun m => (Ret (self m), m, []).
Definition set (f : channel -> channel) : JS unit :=
  modify (fun m => mkMachine (f (self m)) (requests m) (next_request m) (probes m)).
Definition set_requests (f : gmap nat ChannelRequest -> gmap nat ChannelRequest) : JS unit :=
  modify (fun m => mkMachine (self m) (f (requests m)) (next_request m) (probes m)).

Local Open Scope js_scope.

(** [this.state_ == State_.X]; a null state equals none of them. *)
Definition state_is (c : channel) (a : State_) : bool :=
  match state_ c with
  | Some b => State_eqb b a
  | None => false
  end.

(** Modelled from the spec: [goog.net.ChannelRequest.createChannelRequest]
    returns a new request object; nothing has been received on it. *)
Definition createChannelRequest : JS nat :=
  fun m =>
    let id := next_request m in
    (Ret id,
     mkMachine (self m)
       (<[id := mkChannelRequest (-1) false None false]> (requests m))
       (S id) (probes m),
     [CreateChannelRequest id]).

(** Modelled from the spec: [ChannelRequest.prototype.cancel]. *)
Definition cancel (id : nat) : JS unit :=
  set_requests (alter cancelled id) ;;
  emit (Cancel id).

(** Modelled from the spec: [goog.net.tmpnetwork.testLoadImageWithRetries]
    starts the image probe (with its retries) and calls back later, once. *)
Definition testLoadImageWithRetries (url : Uri) (timeout retries pause : Z) : JS unit :=
  modify (fun m => mkMachine (self m) (requests m) (next_request m) (S (probes m))) ;;
  emit (TestLoadImageWithRetries url timeout retries pause).

(** [goog.net.BrowserTestChannel.prototype.notifyServerReachabilityEvent] *)
Definition notifyServerReachabilityEvent (reachabilityType : ServerReachability) : JS unit :=
  emit (NotifyServerReachabilityEvent reachabilityType).

Section Methods.

(** [goog.net.ChannelRequest.supportsXhrStreaming()], fixed by the browser. *)
Variable supportsXhrStreaming : bool.

(** [goog.net.BrowserTestChannel.prototype.checkBlocked_] *)
Definition checkBlocked_ : JS unit :=
  let! c := this in
  let uri := createDataUri (channel_ c) (blockedPrefix_ c) "/mail/images/cleardot.gif" in
  let uri := makeUnique uri in
  testLoadImageWithRetries uri BLOCKED_TIMEOUT_ BLOCKED_RETRIES_
    BLOCKED_PAUSE_BETWEEN_RETRIES_ ;;
  notifyServerReachabilityEvent REQUEST_MADE.

(** [goog.net.BrowserTestChannel.prototype.connectStage2_].  In the
    message of the second [debug] call [+] binds tighter than [?:], so the
    condition is a non-empty string and the message is always 'Buffered'. *)
Definition connectStage2_ : JS unit :=
  emit (Debug "TestConnection: starting stage 2") ;;
  let! c := this in
  match getSecondTestResults (channel_ c) with
  | Some secondTestResults =>
      emit (Debug "Buffered") ;;
      emit (NotifyStatEvent TEST_STAGE_TWO_START) ;;
      if secondTestResults then
        emit (NotifyStatEvent PROXY) ;;
        emit (TestConnectionFinished false)
      else
        emit (NotifyStatEvent NOPROXY) ;;
        emit (TestConnectionFinished true)
  | None =>
      let! r := createChannelRequest in
      set (set_request_ (Some r)) ;;
      emit (SetExtraHeaders r (extraHeaders_ c)) ;;
      let recvDataUri := getBackChannelUri (channel_ c) (hostPrefix_ c) (path_ c) in
      emit (NotifyStatEvent TEST_STAGE_TWO_START) ;;
      if negb supportsXhrStreaming then
        emit (TridentGet r (setParameterValues "TYPE" "html" recvDataUri)
                (truthy (hostPrefix_ c)))
      else
        emit (XmlHttpGet r (setParameterValues "TYPE" "xmlhttp" recvDataUri)
                false (hostPrefix_ c) false)
  end.

(** [goog.net.BrowserTestChannel.prototype.connect]; [now] is what
    [Date.now()] returns. *)
Definition connect (now : Z) (path : string) : JS unit :=
  set (set_path_ (Some path)) ;;
  let! c := this in
  let sendDataUri := getForwardChannelUri (channel_ c) (path_ c) in
  emit (NotifyStatEvent TEST_STAGE_ONE_START) ;;
  set (set_startTime_ (Some now)) ;;
  match getFirstTestResults (channel_ c) with
  | Some firstTestResults =>
      set (set_hostPrefix_ (correctHostPrefix (channel_ c) (nth 0 firstTestResults JUndefined))) ;;
      set (set_blockedPrefix_ (nth 1 firstTestResults JUndefined)) ;;
      let! c := this in
      if truthy (blockedPrefix_ c) then
        set (set_state_ (Some CHECKING_BLOCKED)) ;;
        checkBlocked_
      else
        set (set_state_ (Some CONNECTION_TESTING)) ;;
        connectStage2_
  | None =>
      let sendDataUri := setParameterValues "MODE" "init" sendDataUri in
      let! r := createChannelRequest in
      set (set_request_ (Some r)) ;;
      emit (SetExtraHeaders r (extraHeaders_ c)) ;;
      emit (XmlHttpGet r sendDataUri false JNull true) ;;
      set (set_state_ (Some INIT))
  end.

(** [goog.net.BrowserTestChannel.prototype.checkBlockedCallback_] *)
Definition checkBlockedCallback_ (succeeded : bool) : JS unit :=
  (if succeeded then
     set (set_state_ (Some CONNECTION_TESTING)) ;;
     connectStage2_
   else
     emit (NotifyStatEvent CHANNEL_BLOCKED) ;;
     emit TestConnectionBlocked) ;;
  if succeeded then notifyServerReachabilityEvent REQUEST_SUCCEEDED
  else ret tt.

(** [goog.net.BrowserTestChannel.prototype.abort] *)
Definition abort : JS unit :=
  let! c := this in
  match request_ c with
  | Some r => cancel r ;; set (set_request_ None)
  | None => ret tt
  end ;;
  set (set_lastStatusCode_ (-1)).

(** [goog.net.BrowserTestChannel.prototype.checkForEarlyNonBuffered_] *)
Definition checkForEarlyNonBuffered_ : JS bool :=
  let! c := this in
  let ms := to_number (firstTime_ c) - to_number (startTime_ c) in
  ret (supportsXhrStreaming || (ms <? MIN_TIME_EXPECTED_BETWEEN_DATA_)).

(** Reading a property of the request object [id]. *)
Definition request (id : nat) : JS ChannelRequest :=
  fun m =>
    match requests m !! id with
    | Some rq => (Ret rq, m, [])
    | None => (Throw (TypeError "no such request"), m, [])
    end.

(** [goog.net.BrowserTestChannel.prototype.onRequestData]; [now] is what
    [Date.now()] returns. *)
Definition onRequestData (now : Z) (req : nat) (responseText : string) : JS unit :=
  let! rq := request req in
  set (set_lastStatusCode_ (getLastStatusCode rq)) ;;
  let! c := this in
  if state_is c INIT then
    emit (Debug "TestConnection: Got data for stage 1") ;;
    if String.eqb responseText EmptyString then
      emit (Debug "TestConnection: Null responseText") ;;
      emit (TestConnectionFailure (Some BAD_DATA))
    else
      match parser_ c responseText with
      | ParseThrows =>
          emit DumpException ;;
          emit (TestConnectionFailure (Some BAD_DATA))
      | Parsed respArray =>
          match js_index respArray 0 with
          | Some v0 =>
              set (set_hostPrefix_ (correctHostPrefix (channel_ c) v0)) ;;
              match js_index respArray 1 with
              | Some v1 => set (set_blockedPrefix_ v1)
              | None => throw (TypeError "respArray is null")
              end
          | None => throw (TypeError "respArray is null")
          end
      end
  else if state_is c CONNECTION_TESTING then
    if receivedIntermediateResult_ c then
      emit (NotifyStatEvent TEST_STAGE_TWO_DATA_TWO) ;;
      set (set_lastTime_ (Some now))
    else
      if String.eqb responseText "11111" then
        emit (NotifyStatEvent TEST_STAGE_TWO_DATA_ONE) ;;
        set (set_receivedIntermediateResult_ true) ;;
        set (set_firstTime_ (Some now)) ;;
        let! early := checkForEarlyNonBuffered_ in
        if early then
          set (set_lastStatusCode_ 200) ;;
          match request_ c with
          | Some r => cancel r
          | None => throw (TypeError "this.request_ is null")
          end ;;
          emit (Debug "Test connection succeeded; using streaming connection") ;;
          emit (NotifyStatEvent NOPROXY) ;;
          emit (TestConnectionFinished true)
        else ret tt
      else
        emit (NotifyStatEvent TEST_STAGE_TWO_DATA_BOTH) ;;
        set (set_lastTime_ (Some now)) ;;
        set (set_firstTime_ (Some now)) ;;
        set (set_receivedIntermediateResult_ false)
  else ret tt.

(** [goog.net.BrowserTestChannel.prototype.onRequestComplete]; the
    parameter [req] is not read, the method goes through [this.request_]. *)
Definition onRequestComplete (req : nat) : JS unit :=
  let! c := this in
  match request_ c with
  | None => throw (TypeError "this.request_ is null")
  | Some r =>
      let! rq := request r in
      set (set_lastStatusCode_ (getLastStatusCode rq)) ;;
      if negb (getSuccess rq) then
        emit (Debug ("TestConnection: request failed, in state " +:+
                     match state_ c with Some a => State_number a | None => "null" end)) ;;
        (if state_is c INIT then
           emit (NotifyStatEvent TEST_STAGE_ONE_FAILED)
         else if state_is c CONNECTION_TESTING then
           emit (NotifyStatEvent TEST_STAGE_TWO_FAILED)
         else ret tt) ;;
        emit (TestConnectionFailure (getLastError rq))
      else
        if state_is c INIT then
          emit (Debug "TestConnection: request complete for initial check") ;;
          if truthy (blockedPrefix_ c) then
            set (set_state_ (Some CHECKING_BLOCKED)) ;;
            checkBlocked_
          else
            set (set_state_ (Some CONNECTION_TESTING)) ;;
            connectStage2_
        else if state_is c CONNECTION_TESTING then
          emit (Debug "TestConnection: request complete for stage 2") ;;
          let goodConn :=
            if negb supportsXhrStreaming then
              let ms := to_number (lastTime_ c) - to_number (firstTime_ c) in
              if ms <? 200 then false else true
            else receivedIntermediateResult_ c in
          if goodConn then
            emit (Debug "Test connection succeeded; using streaming connection") ;;
            emit (NotifyStatEvent NOPROXY) ;;
            emit (TestConnectionFinished true)
          else
            emit (Debug "Test connection failed; not using streaming") ;;
            emit (NotifyStatEvent PROXY) ;;
            emit (TestConnectionFinished false)
        else ret tt
  end.

(** [goog.net.BrowserTestChannel.prototype.setExtraHeaders] *)
Definition setExtraHeaders (extraHeaders : option (list (string * string))) : JS unit :=
  set (set_extraHeaders_ extraHeaders).

(** [goog.net.BrowserTestChannel.prototype.setParser] *)
Definition setParser (parser : string -> parse_result) : JS unit :=
  set (set_parser_ parser).

(** *** The event loop around one test channel *)

(** What can happen to a test channel: its owner calls a method, the
    request issuer delivers data or the completion of a request that is
    neither cancelled nor complete, or the image probe calls back. *)
Inductive event : Type :=
| CallConnect (now : Z) (path : string)
| CallAbort
| CallSetExtraHeaders (extraHeaders : option (list (string * string)))
| CallSetParser (parser : string -> parse_result)
| RequestData (now : Z) (req : nat) (status : Z) (responseText : string)
| RequestComplete (req : nat) (status : Z) (success : bool)
    (lastError : option Error)
| ProbeCallback (succeeded : bool).

Definition live (m : machine) (req : nat) : bool :=
  match requests m !! req with
  | Some rq => negb (rq_done rq)
  | None => false
  end.

Definition step (e : event) (m : machine) : option (machine * list effect) :=
  match e with
  | CallConnect now path => Some (entry Uncaught (connect now path) m)
  | CallAbort => Some (entry Uncaught abort m)
  | CallSetExtraHeaders h => Some (entry Uncaught (setExtraHeaders h) m)
  | CallSetParser p => Some (entry Uncaught (setParser p) m)
  | RequestData now req status responseText =>
      if live m req then
        Some (entry Uncaught
                (set_requests
                   (alter (fun rq => mkChannelRequest status (getSuccess rq)
                                       (getLastError rq) false) req) ;;
                 onRequestData now req responseText) m)
      else None
  | RequestComplete req status success lastError =>
      if live m req then
        Some (entry Uncaught
                (set_requests
                   (alter (fun _ => mkChannelRequest status success lastError true) req) ;;
                 onRequestComplete req) m)
      else None
  | ProbeCallback succeeded =>
      match probes m with
      | S n =>
          Some (entry Uncaught
                  (modify (fun m => mkMachine (self m) (requests m) (next_request m) n) ;;
                   checkBlockedCallback_ succeeded) m)
      | O => None
      end
  end.

Definition run : list event -> machine -> option (machine * list effect) :=
  run_loop step.

End Methods.

(** A freshly constructed test channel. *)
Definition start (owner : BrowserChannel) (parser : string -> parse_result) : machine :=
  mkMachine (new owner parser) ∅ 0%nat 0%nat.

(** *** Vocabulary for the properties of the test channel *)

(** The stage-2 report to the owner, [testConnectionFinished]. *)
Definition is_finished (e : effect) : bool :=
  match e with
  | TestConnectionFinished _ => true
  | _ => false
  end.

(** [testConnectionFailure(this, BAD_DATA)] *)
Definition is_bad_data_failure (e : effect) : bool :=
  match e with
  | TestConnectionFailure (Some BAD_DATA) => true
  | _ => false
  end.

(** Any report to the owner that ends the test. *)
Definition is_report (e : effect) : bool :=
  match e with
  | TestConnectionFinished _ | TestConnectionFailure _ | TestConnectionBlocked => true
  | _ => false
  end.

(** Anything that puts a request or a probe on the network. *)
Definition is_network (e : effect) : bool :=
  match e with
  | CreateChannelRequest _ | XmlHttpGet _ _ _ _ _ | TridentGet _ _ _
  | TestLoadImageWithRetries _ _ _ _ => true
  | _ => false
  end.

Definition is_probe (e : effect) : bool :=
  match e with
  | TestLoadImageWithRetries _ _ _ _ => true
  | _ => false
  end.


(** The first statement of [connectStage2_]. *)
Definition is_stage2_start (e : effect) : bool :=
  match e with
  | Debug msg => String.eqb msg "TestConnection: starting stage 2"
  | _ => false
  end.

(** One turn of the event loop: the state before, the event, the state
    after and the effects of the turn. *)
Record turn : Type := mkTurn {
  before : machine;
  happened : event;
  after : machine;
  emitted : list effect
}.

(** The turns of a run, up to the first event that cannot happen. *)
Fixpoint turns (supportsXhrStreaming : bool) (evs : list event) (m : machine)
  : list turn :=
  match evs with
  | [] => []
  | e :: evs =>
      match step supportsXhrStreaming e m with
      | Some (m1, l) => mkTurn m e m1 l :: turns supportsXhrStreaming evs m1
      | None => []
      end
  end.

(** The blocked prefix the channel holds is falsy. *)
Definition falsy_blockedPrefix (m : machine) : Prop :=
  truthy (blockedPrefix_ (self m)) = false.

(** The turn is the completion handler of a successful stage-1 request,
    run in state INIT. *)
Definition INIT_completion (t : turn) : Prop :=
  state_ (self (before t)) = Some INIT /\
  exists req status lastError,
    happened t = RequestComplete req status true lastError /\
    request_ (self (before t)) = Some req.

(** The turn is a [connect] that finds cached stage-1 results. *)
Definition cached_connect (t : turn) : Prop :=
  (exists now path, happened t = CallConnect now path) /\
  is_Some (getFirstTestResults (channel_ (self (before t)))).


(** *** Sample owners, parsers and runs *)

(** Where a run ends (nothing happens if the run cannot happen). *)
Definition machine_after (supportsXhrStreaming : bool) (evs : list event)
    (m : machine) : machine :=
  match run supportsXhrStreaming evs m with
  | Some (m', _) => m'
  | None => m
  end.

Definition plain_uri (base : string) : Uri := mkUri base [] false.

(** An owner with the given cached results of the two stages. *)
Definition owner (first : option (list jsval)) (second : option bool) : BrowserChannel :=
  mkBrowserChannel
    (fun path => plain_uri (default EmptyString path))
    (fun _ path => plain_uri (default EmptyString path))
    (fun _ path => plain_uri path)
    first second (fun v => v).

(** A parser for the stage-1 answers of a server at hostA that has no
    blocked prefix; it throws on anything else. *)
Definition parser (text : string) : parse_result :=
  if String.eqb text "[hostA,]" then Parsed (JArr [JStr "hostA"; JStr EmptyString])
  else ParseThrows.

(** Stage 1 over the network, answered without a blocked prefix. *)
Definition stage1_done : list event :=
  [CallConnect 0 "/test"; RequestData 10 0 200 "[hostA,]";
   RequestComplete 0 200 true None].

(** [connect] was called and the stage-1 request is in flight. *)
Definition stage1_started : list event := [CallConnect 0 "/test"].

(** *** Further vocabulary *)

(** How far the state machine has come. *)
Definition rank (st : option State_) : nat :=
  match st with
  | None => 0
  | Some INIT => 1
  | Some CHECKING_BLOCKED => 2
  | Some CONNECTION_TESTING => 3
  end.

(** A stage-2 request put on the network. *)
Definition is_stage2_request (e : effect) : bool :=
  match e with
  | XmlHttpGet _ _ _ _ noClose => negb noClose
  | TridentGet _ _ _ => true
  | _ => false
  end.

(** A parser that also accepts the text null, as a JSON parser does. *)
Definition json_like_parser (text : string) : parse_result :=
  if String.eqb text "null" then Parsed JNull else parser text.

(** A parser for a server at hostA whose blocked prefix is blockedHostB. *)
Definition blocking_parser (text : string) : parse_result :=
  if String.eqb text "[hostA,blockedHostB]"
  then Parsed (JArr [JStr "hostA"; JStr "blockedHostB"])
  else ParseThrows.

(** Stage 1 over the network, answered with a blocked prefix. *)
Definition stage1_blocked : list event :=
  [CallConnect 0 "/test"; RequestData 10 0 200 "[hostA,blockedHostB]"].

(** What a run emits (nothing if the run cannot happen). *)
Definition trace_after (supportsXhrStreaming : bool) (evs : list event)
    (m : machine) : list effect :=
  match run supportsXhrStreaming evs m with
  | Some (_, l) => l
  | None => []
  end.

End BrowserTestChannel.

(** ** goog.net.IframeLoadMonitor *)

Module IframeLoadMonitor.

(** [goog.net.IframeLoadMonitor.LOAD_EVENT] *)
Definition LOAD_EVENT : string := "ifload".

(** [goog.net.IframeLoadMonitor.POLL_INTERVAL_MS_] *)
Definition POLL_INTERVAL_MS_ : Z := 100.

(** [goog.events.EventType.LOAD] *)
Definition LOAD : string := "load".

(** What a script can read of an iframe at one moment: reading its
    content document or the body of that throws (the iframe is not in
    the document yet, or is not loaded far enough), or gives the body,
    which is null or an element with or without a first child. *)
Inductive frame : Type :=
| Unreadable
| Body (body : option bool).

(** The fields of a monitor.  [iframe_] is [None] once it is deleted;
    [intervalId_] is [None] while it is undefined or null (the handles of
    [window.setInterval] are positive integers, so a handle is truthy). *)
Record monitor : Type := mkMonitor {
  iframe_ : option nat;
  hasContent_ : bool;
  isLoaded_ : bool;
  onloadListenerKey_ : option nat;
  intervalId_ : option positive
}.

Definition set_iframe_ v (m : monitor) : monitor :=
  mkMonitor v (hasContent_ m) (isLoaded_ m) (onloadListenerKey_ m) (intervalId_ m).
Definition set_isLoaded_ v (m : monitor) : monitor :=
  mkMonitor (iframe_ m) (hasContent_ m) v (onloadListenerKey_ m) (intervalId_ m).
Definition set_onloadListenerKey_ v (m : monitor) : monitor :=
  mkMonitor (iframe_ m) (hasContent_ m) (isLoaded_ m) v (intervalId_ m).
Definition set_intervalId_ v (m : monitor) : monitor :=
  mkMonitor (iframe_ m) (hasContent_ m) (isLoaded_ m) (onloadListenerKey_ m) v.

(** The platform under the monitor ([goog.events], [goog.dom] and the
    timers of the browser are not among the sources), as far as the
    monitor deals with it: the iframes of the page, the listeners of the
    monitor that are registered on its iframe, and its intervals that are
    running.  Keys and handles are never reused. *)
Record window : Type := mkWindow {
  frames : gmap nat frame;
  listeners : gset nat;
  next_key : nat;
  intervals : gset positive;
  next_interval : positive
}.

Definition set_frames v (w : window) : window :=
  mkWindow v (listeners w) (next_key w) (intervals w) (next_interval w).
Definition set_listeners v (w : window) : window :=
  mkWindow (frames w) v (next_key w) (intervals w) (next_interval w).
Definition set_intervals v (w : window) : window :=
  mkWindow (frames w) (listeners w) (next_key w) v (next_interval w).

(** A page with the given iframes and nothing registered. *)
Definition init_window (fs : gmap nat frame) : window :=
  mkWindow fs ∅ 0%nat ∅ 1%positive.

(** Calls the monitor makes, in program order. *)
Inductive effect : Type :=
| Listen (src : nat) (type : string) (key : nat)
| SetInterval (id : positive) (ms : Z)
| ClearInterval (id : positive)
| UnlistenByKey (key : option nat)
| DispatchEvent (type : string)
| SuperDisposeInternal
| Uncaught (x : exn).

Record sys : Type := mkSys { mon : monitor; win : window }.

Definition JS : Type -> Type := M sys effect.

Local Open Scope js_scope.

Definition this : JS monitor := let! s := get in ret (mon s).
Definition set (f : monitor -> monitor) : JS unit :=
  modify (fun s => mkSys (f (mon s)) (win s)).
Definition set_win (f : window -> window) : JS unit :=
  modify (fun s => mkSys (mon s) (f (win s))).

(** [try { body } catch (e) { handler }]: what the body did before it
    threw stays. *)
Definition try_catch {A} (body : JS A) (handler : exn -> JS A) : JS A :=
  fun s =>
    match body s with
    | (Ret a, s1, l1) => (Ret a, s1, l1)
    | (Throw x, s1, l1) =>
        match handler x s1 with
        | (r, s2, l2) => (r, s2, l1 ++ l2)
        end
    end.

(** Platform: [goog.dom.getFrameContentDocument(iframe).body], which
    throws when the iframe is undefined or cannot be read. *)
Definition getFrameContentDocument_body (iframe : option nat) : JS (option bool) :=
  let! s := get in
  match iframe with
  | None => throw (TypeError "iframe is undefined")
  | Some i =>
      match frames (win s) !! i with
      | Some (Body body) => ret body
      | Some Unreadable | None => throw (TypeError "document is null")
      end
  end.

(** Platform: [goog.events.listen(src, type, this.handleLoad_, false, this)]
    registers the listener under a fresh key and returns the key. *)
Definition listen (src : nat) (type : string) : JS nat :=
  fun s =>
    let key := next_key (win s) in
    (Ret key,
     mkSys (mon s)
       (mkWindow (frames (win s)) ({[key]} ∪ listeners (win s)) (S key)
          (intervals (win s)) (next_interval (win s))),
     [Listen src type key]).

(** Platform: [goog.events.unlistenByKey(key)]; a null key or one that is
    not registered any more removes nothing. *)
Definition unlistenByKey (key : option nat) : JS unit :=
  match key with
  | Some k => set_win (fun w => set_listeners (listeners w ∖ {[k]}) w)
  | None => ret tt
  end ;;
  emit (UnlistenByKey key).

(** Platform: [window.setInterval(goog.bind(this.handleLoad_, this), ms)]
    starts an interval under a fresh handle and returns the handle. *)
Definition setInterval (ms : Z) : JS positive :=
  fun s =>
    let id := next_interval (win s) in
    (Ret id,
     mkSys (mon s)
       (mkWindow (frames (win s)) (listeners (win s)) (next_key (win s))
          ({[id]} ∪ intervals (win s)) (Pos.succ id)),
     [SetInterval id ms]).

(** Platform: [window.clearInterval(id)] *)
Definition clearInterval (id : positive) : JS unit :=
  set_win (fun w => set_intervals (intervals w ∖ {[id]}) w) ;;
  emit (ClearInterval id).

(** [goog.net.IframeLoadMonitor.prototype.isLoaded] *)
Definition isLoaded : JS bool := let! self := this in ret (isLoaded_ self).

(** [goog.net.IframeLoadMonitor.prototype.getIframe] *)
Definition getIframe : JS (option nat) := let! self := this in ret (iframe_ self).

(** [goog.net.IframeLoadMonitor.prototype.maybeStopTimer_] *)
Definition maybeStopTimer_ : JS unit :=
  let! self := this in
  match intervalId_ self with
  | Some id =>
      clearInterval id ;;
      set (set_intervalId_ None)
  | None => ret tt
  end.

(** [goog.net.IframeLoadMonitor.prototype.isLoadedHelper_] *)
Definition isLoadedHelper_ : JS bool :=
  let! self := this in
  try_catch
    (let! body := getFrameContentDocument_body (iframe_ self) in
     ret (if hasContent_ self
          then match body with Some firstChild => firstChild | None => false end
          else match body with Some _ => true | None => false end))
    (fun _ => ret false).

(** [goog.net.IframeLoadMonitor.prototype.handleLoad_] *)
Definition handleLoad_ : JS unit :=
  let! loaded := isLoadedHelper_ in
  if loaded then
    maybeStopTimer_ ;;
    let! self := this in
    unlistenByKey (onloadListenerKey_ self) ;;
    set (set_onloadListenerKey_ None) ;;
    set (set_isLoaded_ true) ;;
    emit (DispatchEvent LOAD_EVENT)
  else ret tt.

(** [goog.net.IframeLoadMonitor.prototype.disposeInternal] *)
Definition disposeInternal : JS unit :=
  set (set_iframe_ None) ;;
  maybeStopTimer_ ;;
  let! self := this in
  unlistenByKey (onloadListenerKey_ self) ;;
  emit SuperDisposeInternal.

(** The body of the constructor, run on the object whose [iframe_] and
    [hasContent_] are set. *)
Definition constructor (iframe : nat) : JS unit :=
  let! loaded := isLoadedHelper_ in
  set (set_isLoaded_ loaded) ;;
  if negb loaded then
    let! key := listen iframe LOAD in
    set (set_onloadListenerKey_ (Some key)) ;;
    let! id := setInterval POLL_INTERVAL_MS_ in
    set (set_intervalId_ (Some id))
  else ret tt.

(** [new goog.net.IframeLoadMonitor(iframe, opt_hasContent)] in a window:
    the system it leaves and the calls it made. *)
Definition new (iframe : nat) (opt_hasContent : option bool) (w : window)
  : sys * list effect :=
  entry Uncaught (constructor iframe)
    (mkSys (mkMonitor (Some iframe) (default false opt_hasContent) false None None) w).

(** What happens to a monitor: the browser fires the load event on the
    iframe and calls the listener registered under a key, an interval
    fires, the page changes what can be read of an iframe, or the owner
    disposes of the monitor. *)
Inductive action : Type :=
| LoadFires (key : nat)
| IntervalFires (id : positive)
| FrameChanges (iframe : nat) (f : frame)
| CallDispose.

(** One turn of the event loop.  A listener is called only while it is
    registered, an interval fires only until it is cleared. *)
Definition step (a : action) (s : sys) : option (sys * list effect) :=
  match a with
  | LoadFires key =>
      if bool_decide (key ∈ listeners (win s))
      then Some (entry Uncaught handleLoad_ s)
      else None
  | IntervalFires id =>
      if bool_decide (id ∈ intervals (win s))
      then Some (entry Uncaught handleLoad_ s)
      else None
  | FrameChanges i f =>
      Some (mkSys (mon s) (set_frames (<[i := f]> (frames (win s))) (win s)), [])
  | CallDispose => Some (entry Uncaught disposeInternal s)
  end.

Definition run : list action -> sys -> option (sys * list effect) := run_loop step.

(** *** Vocabulary of the properties *)

Definition is_ifload (e : effect) : bool :=
  match e with
  | DispatchEvent type => String.eqb type LOAD_EVENT
  | _ => false
  end.

Definition is_Uncaught (e : effect) : bool :=
  match e with
  | Uncaught _ => true
  | _ => false
  end.

(** What [isLoadedHelper_] computes from what can be read of the iframe. *)
Definition looks_loaded (s : sys) : bool :=
  match iframe_ (mon s) with
  | Some i =>
      match frames (win s) !! i with
      | Some (Body (Some firstChild)) => if hasContent_ (mon s) then firstChild else true
      | _ => false
      end
  | None => false
  end.

(** The monitor waits: it is not loaded, and holds the one listener and
    the one interval that are registered. *)
Definition waiting (s : sys) : Prop :=
  isLoaded_ (mon s) = false /\
  exists key id,
    onloadListenerKey_ (mon s) = Some key /\ intervalId_ (mon s) = Some id /\
    listeners (win s) = {[key]} /\ intervals (win s) = {[id]}.

(** The monitor is idle: nothing of it is registered in the window. *)
Definition idle (s : sys) : Prop :=
  intervalId_ (mon s) = None /\ listeners (win s) = ∅ /\ intervals (win s) = ∅.

(** The state [handleLoad_] leaves when the iframe looks loaded. *)
Definition loaded_state (s : sys) : sys :=
  mkSys
    (mkMonitor (iframe_ (mon s)) (hasContent_ (mon s)) true None None)
    (mkWindow (frames (win s))
       (match onloadListenerKey_ (mon s) with
        | Some k => listeners (win s) ∖ {[k]}
        | None => listeners (win s)
        end)
       (next_key (win s))
       (match intervalId_ (mon s) with
        | Some id => intervals (win s) ∖ {[id]}
        | None => intervals (win s)
        end)
       (next_interval (win s))).

(** The state [disposeInternal] leaves. *)
Definition disposed_state (s : sys) : sys :=
  mkSys
    (mkMonitor None (hasContent_ (mon s)) (isLoaded_ (mon s))
       (onloadListenerKey_ (mon s)) None)
    (win (loaded_state s)).

(** The monitor has stopped: it is loaded or disposed of. *)
Definition stopped (s : sys) : bool :=
  isLoaded_ (mon s) || negb (bool_decide (is_Some (iframe_ (mon s)))).

Definition is_handler (a : action) : bool :=
  match a with
  | LoadFires _ | IntervalFires _ => true
  | _ => false
  end.

Definition state_after (acts : list action) (r : sys * list effect) : sys :=
  match run acts r.1 with
  | Some (s, _) => s
  | None => r.1
  end.

Definition trace_of (acts : list action) (r : sys * list effect) : list effect :=
  match run acts r.1 with
  | Some (_, l) => r.2 ++ l
  | None => r.2
  end.

(** A page whose iframe 7 is not readable at first. *)
Definition page : window := init_window {[ 7%nat := Unreadable ]}.

(** The iframe gets an empty body, then content; the poll notices. *)
Definition loads_late : list action :=
  [IntervalFires 1; FrameChanges 7 (Body (Some false)); LoadFires 0;
   FrameChanges 7 (Body (Some true)); IntervalFires 1;
   FrameChanges 7 (Body None)].

End IframeLoadMonitor.

(** * Properties *)

(** ** Reasoning about methods and event loops *)

Lemma Some_pair {A B} (e : A * B) (a : A) (b : B) :
  Some e = Some (a, b) -> a = e.1 /\ b = e.2.
Proof. intros [= ->]. auto. Qed.

Section MethodFacts.
Context {St Ef : Type}.
Implicit Types (s : St) (l : list Ef).

Lemma bind_unfold {A B} (m : M St Ef A) (k : A -> M St Ef B) s :
  bind m k s =
    match result (m s) with
    | Ret a =>
        (result (k a (final (m s))), final (k a (final (m s))),
         effects (m s) ++ effects (k a (final (m s))))
    | Throw x => (Throw x, final (m s), effects (m s))
    end.
Proof.
  unfold bind, result, final, effects.
  destruct (m s) as [[[a|x] s1] l1]; cbn; [|reflexivity].
  destruct (k a s1) as [[r s2] l2]; reflexivity.
Qed.

Lemma keeps_bind {X A B} (obs : St -> X) (m : M St Ef A) (k : A -> M St Ef B) :
  keeps obs m -> (forall a, keeps obs (k a)) -> keeps obs (bind m k).
Proof.
  intros Hm Hk s. rewrite bind_unfold.
  destruct (result (m s)) as [a|x]; cbn; [|apply Hm].
  unfold keeps in Hk. rewrite Hk. apply Hm.
Qed.

Lemma keeps_ret {X A} (obs : St -> X) (a : A) : keeps (Ef:=Ef) obs (ret a).
Proof. intros s; reflexivity. Qed.

Lemma keeps_emit {X} (obs : St -> X) (e : Ef) : keeps obs (emit e).
Proof. intros s; reflexivity. Qed.

Lemma keeps_throw {X A} (obs : St -> X) (x : exn) : keeps (Ef:=Ef) obs (throw (A:=A) x).
Proof. intros s; reflexivity. Qed.

Lemma keeps_assert {X} (obs : St -> X) (b : bool) (msg : string) :
  keeps (Ef:=Ef) obs (assert b msg).
Proof. destruct b; intros s; reflexivity. Qed.

Lemma keeps_modify {X} (obs : St -> X) (f : St -> St) :
  (forall s, obs (f s) = obs s) -> keeps (Ef:=Ef) obs (modify f).
Proof. intros H s; apply H. Qed.

Lemma emits_only_bind {A B} (P : Ef -> Prop) (m : M St Ef A) (k : A -> M St Ef B) :
  emits_only P m -> (forall a, emits_only P (k a)) -> emits_only P (bind m k).
Proof.
  intros Hm Hk s. rewrite bind_unfold.
  destruct (result (m s)) as [a|x]; cbn; [|apply Hm].
  apply Forall_app; split; [apply Hm | apply Hk].
Qed.

Lemma emits_only_ret {A} (P : Ef -> Prop) (a : A) : emits_only (St:=St) P (ret a).
Proof. intros s; constructor. Qed.

Lemma emits_only_emit (P : Ef -> Prop) (e : Ef) : P e -> emits_only (St:=St) P (emit e).
Proof. intros H s; cbn. constructor; [exact H | constructor]. Qed.

Lemma emits_only_throw {A} (P : Ef -> Prop) (x : exn) : emits_only (St:=St) P (throw (A:=A) x).
Proof. intros s; constructor. Qed.

Lemma emits_only_assert (P : Ef -> Prop) (b : bool) (msg : string) :
  emits_only (St:=St) P (assert b msg).
Proof. destruct b; intros s; constructor. Qed.

Lemma emits_only_modify (P : Ef -> Prop) (f : St -> St) : emits_only (St:=St) P (modify f).
Proof. intros s; constructor. Qed.

Lemma preserves_bind {A B} (P : St -> Prop) (m : M St Ef A) (k : A -> M St Ef B) :
  preserves P m -> (forall a, preserves P (k a)) -> preserves P (bind m k).
Proof.
  intros Hm Hk s Hs. rewrite bind_unfold.
  destruct (result (m s)) as [a|x]; cbn; [|apply Hm, Hs].
  apply Hk, Hm, Hs.
Qed.

Lemma preserves_ret {A} (P : St -> Prop) (a : A) : preserves (Ef:=Ef) P (ret a).
Proof. intros s Hs; exact Hs. Qed.

Lemma preserves_emit (P : St -> Prop) (e : Ef) : preserves P (emit e).
Proof. intros s Hs; exact Hs. Qed.

Lemma preserves_throw {A} (P : St -> Prop) (x : exn) : preserves (Ef:=Ef) P (throw (A:=A) x).
Proof. intros s Hs; exact Hs. Qed.

Lemma preserves_assert (P : St -> Prop) (b : bool) (msg : string) :
  preserves (Ef:=Ef) P (assert b msg).
Proof. destruct b; intros s Hs; exact Hs. Qed.

Lemma preserves_modify (P : St -> Prop) (f : St -> St) :
  (forall s, P s -> P (f s)) -> preserves (Ef:=Ef) P (modify f).
Proof. intros H s; apply H. Qed.

Lemma keeps_preserves {X A} (obs : St -> X) (Q : X -> Prop) (m : M St Ef A) :
  keeps obs m -> preserves (fun s => Q (obs s)) m.
Proof. intros H s Hs. rewrite H. exact Hs. Qed.

(** The event loop reports an escaped exception and nothing else. *)
Lemma entry_final (uncaught : exn -> Ef) (m : M St Ef unit) s :
  (entry uncaught m s).1 = final (m s).
Proof. unfold entry, final. destruct (m s) as [[[a|x] s1] l1]; reflexivity. Qed.

Lemma entry_effects (uncaught : exn -> Ef) (m : M St Ef unit) s :
  (entry uncaught m s).2 =
    effects (m s) ++ match result (m s) with
                     | Ret _ => []
                     | Throw x => [uncaught x]
                     end.
Proof.
  unfold entry, effects, result.
  destruct (m s) as [[[a|x] s1] l1]; cbn; [rewrite app_nil_r|]; reflexivity.
Qed.

Section Loop.
Context {Ac : Type} (step : Ac -> St -> option (St * list Ef)).

Lemma run_loop_cons a acts s s' l :
  run_loop step (a :: acts) s = Some (s', l) <->
  exists s1 l1 l2,
    step a s = Some (s1, l1) /\ run_loop step acts s1 = Some (s', l2) /\
    l = l1 ++ l2.
Proof.
  cbn. split.
  - destruct (step a s) as [[s1 l1]|]; [|discriminate].
    destruct (run_loop step acts s1) as [[s2 l2]|] eqn:Hr; [|discriminate].
    intros [= <- <-]. exists s1, l1, l2. auto.
  - intros (s1 & l1 & l2 & -> & -> & ->). reflexivity.
Qed.


(** An invariant of the turns the loop is allowed to take holds at
    the end of the run. *)
Lemma run_loop_invariant (ok : Ac -> Prop) (Inv : St -> Prop) :
  (forall a s s' l, ok a -> Inv s -> step a s = Some (s', l) -> Inv s') ->
  forall acts s s' l,
    Forall ok acts -> Inv s -> run_loop step acts s = Some (s', l) -> Inv s'.
Proof.
  intros Hstep acts. induction acts as [|a acts IH]; intros s s' l Hok Hs Hr.
  - cbn in Hr. injection Hr as <- <-. exact Hs.
  - apply run_loop_cons in Hr as (s1 & l1 & l2 & Ha & Hr & ->).
    inversion Hok as [|? ? Hoka Hokr]; subst.
    apply (IH s1 s' l2 Hokr); [|exact Hr].
    apply (Hstep a s s1 l1 Hoka Hs Ha).
Qed.
End Loop.
End MethodFacts.

Lemma count_eff_app {Ef} (p : Ef -> bool) (l1 l2 : list Ef) :
  count_eff p (l1 ++ l2) = (count_eff p l1 + count_eff p l2)%nat.
Proof. unfold count_eff. rewrite filter_app, length_app. reflexivity. Qed.

Create HintDb js.

#[local] Hint Resolve keeps_ret keeps_emit keeps_throw keeps_assert
  emits_only_ret emits_only_throw emits_only_assert emits_only_modify
  preserves_ret preserves_emit preserves_throw preserves_assert : js.

(** Walk through the body of a method, one statement at a time. *)
Ltac js_walk :=
  repeat first
    [ apply keeps_bind; [|intros ?]
    | apply emits_only_bind; [|intros ?]
    | apply preserves_bind; [|intros ?]
    | progress eauto with js
    | match goal with
      | |- keeps _ (match ?x with _ => _ end) => destruct x
      | |- emits_only _ (match ?x with _ => _ end) => destruct x
      | |- preserves _ (match ?x with _ => _ end) => destruct x
      end ].

(** ** The reconnecting socket *)

Module WebSocketFacts.
Import WebSocket.
Local Open Scope js_scope.

Lemma keeps_this {X} (obs : sys -> X) : keeps obs this.
Proof. intros s; reflexivity. Qed.
Lemma keeps_platform {X} (obs : sys -> X) : keeps obs platform.
Proof. intros s; reflexivity. Qed.
Lemma emits_only_this P : emits_only P this.
Proof. intros s; constructor. Qed.
Lemma emits_only_platform P : emits_only P platform.
Proof. intros s; constructor. Qed.
Lemma preserves_this P : preserves P this.
Proof. intros s Hs; exact Hs. Qed.
Lemma preserves_platform P : preserves P platform.
Proof. intros s Hs; exact Hs. Qed.

Lemma new_WebSocket_keeps {X} (obs : sys -> X) u p :
  (forall sk w w', obs (mkSys sk w) = obs (mkSys sk w')) ->
  keeps obs (new_WebSocket u p).
Proof. intros H [sk w]. apply H. Qed.

Lemma new_WebSocket_emits (P : effect -> Prop) u p :
  (forall h, P (NewTransport h u p)) -> emits_only P (new_WebSocket u p).
Proof. intros H s. cbn. constructor; [apply H | constructor]. Qed.

#[local] Hint Resolve keeps_this keeps_platform emits_only_this
  emits_only_platform preserves_this preserves_platform : js.

(** Unfold a method down to the primitives of the monad. *)
Ltac js_unfold :=
  unfold open, close, send, onOpen_, onClose_, onMessage_, onError_, isOpen,
    clearReconnectTimer_, Timer_clear, transport_close, set, set_env.

Ltac js_frame :=
  js_unfold; js_walk;
  try (apply keeps_modify; intros; reflexivity);
  try (apply new_WebSocket_keeps; intros; reflexivity);
  try (apply new_WebSocket_emits; intros; exact I);
  try (apply emits_only_emit; exact I).

Lemma open_keeps_policy u p : keeps policy (open u p).
Proof. js_frame. Qed.

Lemma send_keeps_policy msg : keeps policy (send msg).
Proof. js_frame. Qed.

Lemma open_no_callOnce u p : emits_only no_callOnce (open u p).
Proof. js_frame. Qed.

Lemma send_no_callOnce msg : emits_only no_callOnce (send msg).
Proof. js_frame. Qed.

Lemma scheduled_delays_app l1 l2 :
  scheduled_delays (l1 ++ l2) = scheduled_delays l1 ++ scheduled_delays l2.
Proof. unfold scheduled_delays. apply omap_app. Qed.

Lemma scheduled_delays_none l :
  Forall no_callOnce l -> scheduled_delays l = [].
Proof.
  induction 1 as [|e l He _ IH]; [reflexivity|].
  destruct e; cbn in *; try exact IH. contradiction.
Qed.

Lemma set_env_then {A} f (m : JS A) s :
  (set_env f ;; m) s = m (mkSys (sock s) (f (env s))).
Proof.
  unfold bind, set_env, modify. cbn.
  destruct (m _) as [[[a|x] s1] l1]; reflexivity.
Qed.

Lemma scheduled_delays_entry (m : JS unit) s :
  scheduled_delays (entry Uncaught m s).2 = scheduled_delays (effects (m s)).
Proof.
  rewrite entry_effects, scheduled_delays_app.
  destruct (result (m s)); cbn; apply app_nil_r.
Qed.

(** *** The backoff schedule *)

(** An unexpected close with auto-reconnect on: one timer with the delay
    computed before, then the counter and the next delay move on. *)
Lemma onClose__unexpected ev s :
  closeExpected_ (sock s) = false -> autoReconnect_ (sock s) = true ->
  policy (final (onClose_ ev s)) =
    (true, getNextReconnect_ (sock s), false, reconnectAttempt_ (sock s) + 1,
     getNextReconnect_ (sock s) (reconnectAttempt_ (sock s) + 1)) /\
  scheduled_delays (effects (onClose_ ev s)) = [nextReconnect_ (sock s)].
Proof.
  intros Hc Ha. unfold onClose_, policy, final, effects. cbn.
  rewrite Hc. cbn. rewrite Ha. cbn. rewrite Ha. auto.
Qed.

(** One turn of the loop that is neither a deliberate close nor an open
    event nor a close event leaves the policy alone and schedules nothing. *)
Lemma step_streak a s s' l :
  keeps_streak a = true -> is_close a = false ->
  step a s = Some (s', l) ->
  policy s' = policy s /\ scheduled_delays l = [].
Proof.
  intros Hk Hc Hs.
  destruct a; try discriminate; unfold step in Hs.
  - apply Some_pair in Hs as [-> ->]. rewrite entry_final, scheduled_delays_entry.
    split; [apply open_keeps_policy | apply scheduled_delays_none, open_no_callOnce].
  - apply Some_pair in Hs as [-> ->]. rewrite entry_final, scheduled_delays_entry.
    split; [apply send_keeps_policy | apply scheduled_delays_none, send_no_callOnce].
  - destruct (transports (env s) !! h); [|discriminate].
    destruct (_ || _); [|discriminate]. apply Some_pair in Hs as [-> ->]. cbn. auto.
  - destruct (transports (env s) !! h); [|discriminate].
    destruct (ReadyState_eqb _ _); [discriminate|]. apply Some_pair in Hs as [-> ->]. cbn. auto.
  - destruct (timers (env s) !! id) as [p|]; [|discriminate].
    apply Some_pair in Hs as [-> ->]. rewrite entry_final, scheduled_delays_entry.
    rewrite set_env_then.
    split; [apply (open_keeps_policy _ _ (mkSys _ _))
           | apply scheduled_delays_none, open_no_callOnce].
Qed.

Lemma step_unexpected_close h ev s s' l :
  closeExpected_ (sock s) = false -> autoReconnect_ (sock s) = true ->
  step (TransportCloses h ev) s = Some (s', l) ->
  policy s' =
    (true, getNextReconnect_ (sock s), false, reconnectAttempt_ (sock s) + 1,
     getNextReconnect_ (sock s) (reconnectAttempt_ (sock s) + 1)) /\
  scheduled_delays l = [nextReconnect_ (sock s)].
Proof.
  intros Hc Ha Hs. unfold step in Hs.
  destruct (transports (env s) !! h); [|discriminate].
  destruct (ReadyState_eqb _ _); [discriminate|]. apply Some_pair in Hs as [-> ->].
  rewrite entry_final, scheduled_delays_entry, set_env_then.
  apply (onClose__unexpected ev (mkSys (sock s) (set_readyState h CLOSED (env s))) Hc Ha).
Qed.

(** The schedule of a streak that starts at attempt [k]. *)
Lemma streak_schedule acts : forall s s' l k,
  policy s = (true, EXPONENTIAL_BACKOFF_, false, k, EXPONENTIAL_BACKOFF_ k) ->
  forallb keeps_streak acts = true ->
  run acts s = Some (s', l) ->
  let n := length (filter (fun a => is_close a = true) acts) in
  policy s' = (true, EXPONENTIAL_BACKOFF_, false, k + Z.of_nat n,
               EXPONENTIAL_BACKOFF_ (k + Z.of_nat n)) /\
  scheduled_delays l =
    map (fun i => EXPONENTIAL_BACKOFF_ (k + Z.of_nat i)) (seq 0 n).
Proof.
  induction acts as [|a acts IH]; intros s s' l k Hp Hk Hr.
  - cbn in Hr. injection Hr as <- <-. cbn. rewrite Z.add_0_r. auto.
  - apply run_loop_cons in Hr as (s1 & l1 & l2 & Ha & Hr & ->).
    cbn in Hk. apply andb_true_iff in Hk as [Hka Hk].
    rewrite scheduled_delays_app.
    destruct (is_close a) eqn:Hc.
    + destruct a; try discriminate.
      injection Hp as Hp1 Hp2 Hp3 Hp4 Hp5.
      destruct (step_unexpected_close _ _ _ _ _ Hp3 Hp1 Ha) as [Hp' Hl1].
      rewrite Hp2, Hp4 in Hp'. rewrite Hp5 in Hl1.
      destruct (IH s1 s' l2 (k + 1) Hp' Hk Hr) as [Hq Hl2].
      rewrite filter_cons_True by reflexivity. cbn [length].
      rewrite Nat2Z.inj_succ. replace (k + Z.succ _) with (k + 1 + Z.of_nat
        (length (filter (fun a => is_close a = true) acts))) by lia.
      split; [exact Hq|]. rewrite Hl1, Hl2. cbn [seq map app].
      rewrite Z.add_0_r. f_equal. rewrite <- seq_shift, map_map.
      apply map_ext. intros i. f_equal. lia.
    + destruct (step_streak _ _ _ _ Hka Hc Ha) as [Hp' Hl1].
      rewrite Hp in Hp'.
      destruct (IH s1 s' l2 k Hp' Hk Hr) as [Hq Hl2].
      rewrite filter_cons_False by (rewrite Hc; discriminate).
      rewrite Hl1. auto.
Qed.

Lemma EXPONENTIAL_BACKOFF__eq attempt :
  EXPONENTIAL_BACKOFF_ attempt = Z.min (2 ^ attempt * 1000) 60000.
Proof. reflexivity. Qed.

(** C1.  After [N >= 1] consecutive unexpected transport closes of a
    socket built with auto-reconnect on and the default backoff, the delay
    given to the timer of the [N]th reconnect is
    [min(2^(N-1) * 1000, 60000)] ms: the socket starts at attempt 0 and
    each close uses the delay computed before its increment.  Between the
    closes the timers may fire and reopen, the owner may call [open] or
    [send], messages and errors may arrive; the streak ends with a
    deliberate [close()] or a transport that opens. *)
Theorem backoff_nth_delay (N : nat) opt_params w acts s l :
  (1 <= N)%nat ->
  autoReconnect_ (new opt_params) = true ->
  getNextReconnect_ (new opt_params) = EXPONENTIAL_BACKOFF_ ->
  forallb keeps_streak acts = true ->
  length (filter (fun a => is_close a = true) acts) = N ->
  run acts (mkSys (new opt_params) w) = Some (s, l) ->
  scheduled_delays l !! (N - 1)%nat =
    Some (Z.min (2 ^ (Z.of_nat N - 1) * 1000) 60000) /\
  length (scheduled_delays l) = N.
Proof.
  intros HN Hauto Hnext Hk Hcount Hr.
  assert (Hp : policy (mkSys (new opt_params) w) =
               (true, EXPONENTIAL_BACKOFF_, false, 0, EXPONENTIAL_BACKOFF_ 0)).
  { unfold policy. cbn [sock]. rewrite Hauto, Hnext.
    unfold new in *. cbn in *. rewrite Hnext. reflexivity. }
  destruct (streak_schedule acts _ _ _ _ Hp Hk Hr) as [_ Hl].
  rewrite Hcount in Hl. rewrite Hl. split.
  - rewrite list_lookup_fmap, (lookup_seq_lt 0 N (N - 1)) by (clear - HN; lia).
    cbn [fmap option_fmap option_map]. rewrite EXPONENTIAL_BACKOFF__eq.
    replace (0 + Z.of_nat (0 + (N - 1))) with (Z.of_nat N - 1) by lia.
    reflexivity.
  - rewrite length_map, length_seq. reflexivity.
Qed.

Lemma backoff_nth_delay_witness :
  scheduled_delays (trace_of three_failures (start None)) !! 2%nat = Some 4000 /\
  length (scheduled_delays (trace_of three_failures (start None))) = 3%nat.
Proof.
  apply (backoff_nth_delay 3 None init_world three_failures
           (state_after three_failures (start None))
           (trace_of three_failures (start None)));
    [lia | reflexivity | reflexivity | reflexivity | reflexivity
    | vm_compute; reflexivity].
Defined.

(** *** The attempt counter *)

(** C6, as amended.  A transport that opens resets the attempt counter
    to 0.  A transport-close event increments it when the close is
    unexpected and auto-reconnect is on; it leaves the counter alone when
    the close is expected or auto-reconnect is off. *)
Theorem reconnectAttempt_reset_and_increment ev s :
  reconnectAttempt_ (sock (final (onOpen_ s))) = 0 /\
  reconnectAttempt_ (sock (final (onClose_ ev s))) =
    if negb (closeExpected_ (sock s)) && autoReconnect_ (sock s)
    then reconnectAttempt_ (sock s) + 1
    else reconnectAttempt_ (sock s).
Proof.
  split; [reflexivity|].
  unfold onClose_, final. cbn.
  destruct (closeExpected_ (sock s)); cbn; [reflexivity|].
  destruct (autoReconnect_ (sock s)); reflexivity.
Qed.

(** C6, the claim as stated fails: with auto-reconnect off an unexpected
    close does not increment the counter. *)
Lemma reconnectAttempt_kept_when_autoReconnect_off :
  let s := start (Some (mkOptions (Some false) None None)) in
  let ev := mkCloseEvent 1006 EmptyString false in
  closeExpected_ (sock s) = false /\
  reconnectAttempt_ (sock s) = 0 /\
  result (onClose_ ev s) = Ret tt /\
  reconnectAttempt_ (sock (final (onClose_ ev s))) = 0 /\
  reconnectAttempt_ (sock (final (onClose_ ev s))) <> reconnectAttempt_ (sock s) + 1.
Proof. cbn. repeat split; discriminate. Qed.

(** *** Cancelling a reconnect *)

Lemma Timer_callOnce_retired id u p d : preserves (retired id) (Timer_callOnce u p d).
Proof.
  intros [sk w] [Hn Hlt]. cbn in *. split; cbn; [|lia].
  rewrite lookup_insert_ne by lia. exact Hn.
Qed.

Lemma new_WebSocket_retired id u p : preserves (retired id) (new_WebSocket u p).
Proof. intros [sk w] H. exact H. Qed.

Lemma set_retired id f : preserves (retired id) (set f).
Proof. intros [sk w] H. exact H. Qed.

Lemma delete_timer_retired id id' :
  preserves (retired id) (set_env (fun w => set_timers (delete id' (timers w)) w)).
Proof.
  intros [sk w] [Hn Hlt]. split; [|exact Hlt]. cbn in *.
  destruct (decide (id' = id)) as [->|Hne].
  - apply lookup_delete_eq.
  - rewrite lookup_delete_ne by exact Hne. exact Hn.
Qed.

Lemma set_transports_retired id f :
  preserves (retired id) (set_env (fun w => set_transports (f w) w)).
Proof. intros [sk w] H. exact H. Qed.

#[local] Hint Resolve Timer_callOnce_retired new_WebSocket_retired set_retired
  delete_timer_retired set_transports_retired : js.

Ltac js_retired :=
  unfold open, close, send, onOpen_, onClose_, onMessage_, onError_, isOpen,
    clearReconnectTimer_, Timer_clear, transport_close, set_readyState;
  js_walk.

Lemma open_retired id u p : preserves (retired id) (open u p).
Proof. js_retired. Qed.
Lemma close_retired id : preserves (retired id) close.
Proof. js_retired. Qed.
Lemma send_retired id msg : preserves (retired id) (send msg).
Proof. js_retired. Qed.
Lemma onOpen__retired id : preserves (retired id) onOpen_.
Proof. js_retired. Qed.
Lemma onClose__retired id ev : preserves (retired id) (onClose_ ev).
Proof. js_retired. Qed.

(** A retired timer stays retired whatever happens, and so cannot fire. *)
Lemma step_retired id a s s' l :
  retired id s -> step a s = Some (s', l) -> retired id s' /\ a <> TimerFires id.
Proof.
  intros Hr Hs. destruct a; unfold step in Hs.
  - apply Some_pair in Hs as [-> _]. rewrite entry_final.
    split; [apply open_retired, Hr | discriminate].
  - apply Some_pair in Hs as [-> _]. rewrite entry_final.
    split; [apply close_retired, Hr | discriminate].
  - apply Some_pair in Hs as [-> _]. rewrite entry_final.
    split; [apply send_retired, Hr | discriminate].
  - destruct (transports (env s) !! h); [|discriminate].
    destruct (ReadyState_eqb _ _); [|discriminate].
    apply Some_pair in Hs as [-> _]. rewrite entry_final, set_env_then.
    split; [apply onOpen__retired, Hr | discriminate].
  - destruct (transports (env s) !! h); [|discriminate].
    destruct (ReadyState_eqb _ _); [discriminate|].
    apply Some_pair in Hs as [-> _]. rewrite entry_final, set_env_then.
    split; [apply onClose__retired, Hr | discriminate].
  - destruct (transports (env s) !! h); [|discriminate].
    destruct (_ || _); [|discriminate].
    apply Some_pair in Hs as [-> _]. split; [exact Hr | discriminate].
  - destruct (transports (env s) !! h); [|discriminate].
    destruct (ReadyState_eqb _ _); [discriminate|].
    apply Some_pair in Hs as [-> _]. split; [exact Hr | discriminate].
  - destruct (timers (env s) !! id0) as [p|] eqn:Hp; [|discriminate].
    apply Some_pair in Hs as [-> _]. rewrite entry_final, set_env_then.
    split.
    + apply open_retired. apply (delete_timer_retired id id0 s Hr).
    + intros [= ->]. destruct Hr as [Hn _]. congruence.
Qed.

Lemma run_retired id acts : forall s s' l,
  retired id s -> run acts s = Some (s', l) ->
  retired id s' /\ (TimerFires id ∉ acts).
Proof.
  induction acts as [|a acts IH]; intros s s' l Hr Hrun.
  - cbn in Hrun. injection Hrun as <- <-. split; [exact Hr | apply not_elem_of_nil].
  - apply run_loop_cons in Hrun as (s1 & l1 & l2 & Ha & Hrun & ->).
    destruct (step_retired id a s s1 l1 Hr Ha) as [Hr1 Hne].
    destruct (IH s1 s' l2 Hr1 Hrun) as [Hr' Hni].
    split; [exact Hr'|]. intros Hin. apply elem_of_cons in Hin as [Heq|Hin]; auto.
Qed.

(** Tokens are handed out in increasing order, so a pending timer always
    carries a token below the next one. *)
Lemma Timer_callOnce_fresh u p d : preserves tokens_fresh (Timer_callOnce u p d).
Proof.
  intros [sk w] H k q. cbn. intros Hk.
  destruct (decide (next_timer w = k)) as [<-|Hne]; [lia|].
  rewrite lookup_insert_ne in Hk by exact Hne. apply H in Hk. cbn in Hk. lia.
Qed.

Lemma new_WebSocket_fresh u p : preserves tokens_fresh (new_WebSocket u p).
Proof. intros [sk w] H. exact H. Qed.

Lemma set_fresh f : preserves tokens_fresh (set f).
Proof. intros [sk w] H. exact H. Qed.

Lemma delete_timer_fresh id :
  preserves tokens_fresh (set_env (fun w => set_timers (delete id (timers w)) w)).
Proof.
  intros [sk w] H k q. cbn. intros Hk.
  apply lookup_delete_Some in Hk as [_ Hk]. apply (H k q Hk).
Qed.

Lemma set_transports_fresh f :
  preserves tokens_fresh (set_env (fun w => set_transports (f w) w)).
Proof. intros [sk w] H. exact H. Qed.

#[local] Hint Resolve Timer_callOnce_fresh new_WebSocket_fresh set_fresh
  delete_timer_fresh set_transports_fresh : js.

Lemma open_fresh u p : preserves tokens_fresh (open u p).
Proof. js_retired. Qed.
Lemma close_fresh : preserves tokens_fresh close.
Proof. js_retired. Qed.
Lemma send_fresh msg : preserves tokens_fresh (send msg).
Proof. js_retired. Qed.
Lemma onOpen__fresh : preserves tokens_fresh onOpen_.
Proof. js_retired. Qed.
Lemma onClose__fresh ev : preserves tokens_fresh (onClose_ ev).
Proof. js_retired. Qed.

Lemma step_fresh a s s' l :
  tokens_fresh s -> step a s = Some (s', l) -> tokens_fresh s'.
Proof.
  intros Hf Hs. destruct a; unfold step in Hs.
  - apply Some_pair in Hs as [-> _]. rewrite entry_final. apply open_fresh, Hf.
  - apply Some_pair in Hs as [-> _]. rewrite entry_final. apply close_fresh, Hf.
  - apply Some_pair in Hs as [-> _]. rewrite entry_final. apply send_fresh, Hf.
  - destruct (transports (env s) !! h); [|discriminate].
    destruct (ReadyState_eqb _ _); [|discriminate].
    apply Some_pair in Hs as [-> _]. rewrite entry_final, set_env_then.
    apply onOpen__fresh, Hf.
  - destruct (transports (env s) !! h); [|discriminate].
    destruct (ReadyState_eqb _ _); [discriminate|].
    apply Some_pair in Hs as [-> _]. rewrite entry_final, set_env_then.
    apply onClose__fresh, Hf.
  - destruct (transports (env s) !! h); [|discriminate].
    destruct (_ || _); [|discriminate].
    apply Some_pair in Hs as [-> _]. exact Hf.
  - destruct (transports (env s) !! h); [|discriminate].
    destruct (ReadyState_eqb _ _); [discriminate|].
    apply Some_pair in Hs as [-> _]. exact Hf.
  - destruct (timers (env s) !! id) as [p|]; [|discriminate].
    apply Some_pair in Hs as [-> _]. rewrite entry_final, set_env_then.
    apply open_fresh. apply (delete_timer_fresh id s Hf).
Qed.

Lemma reachable_fresh opt_params acts s l :
  run acts (start opt_params) = Some (s, l) -> tokens_fresh s.
Proof.
  apply (run_loop_invariant step (fun _ => True) tokens_fresh).
  - intros a s0 s1 l0 _. apply step_fresh.
  - apply Forall_forall. auto.
  - intros k p Hk. cbn in Hk. rewrite lookup_empty in Hk. discriminate.
Qed.




(** *** Expected and unexpected closes *)












(** *** The backoff function *)

(** X1.  On the values the attempt counter takes, the default backoff
    never waits less than a second nor more than the ceiling of a minute,
    never waits less for a later attempt, and has reached the ceiling from
    the sixth attempt on. *)
Theorem EXPONENTIAL_BACKOFF__bounds a b :
  0 <= a <= b ->
  1000 <= EXPONENTIAL_BACKOFF_ a /\
  EXPONENTIAL_BACKOFF_ a <= EXPONENTIAL_BACKOFF_ b /\
  EXPONENTIAL_BACKOFF_ b <= EXPONENTIAL_BACKOFF_CEILING_ /\
  (6 <= a -> EXPONENTIAL_BACKOFF_ a = EXPONENTIAL_BACKOFF_CEILING_).
Proof.
  intros [Ha Hab]. unfold EXPONENTIAL_BACKOFF_, EXPONENTIAL_BACKOFF_CEILING_. cbn zeta.
  assert (H1 : 1 <= 2 ^ a) by (apply (Z.pow_le_mono_r 2 0 a); lia).
  assert (H2 : 2 ^ a <= 2 ^ b) by (apply Z.pow_le_mono_r; lia).
  repeat split; try lia.
  intros H6. assert (H3 : 2 ^ 6 <= 2 ^ a) by (apply Z.pow_le_mono_r; lia).
  change (2 ^ 6) with 64 in H3. lia.
Qed.

Lemma EXPONENTIAL_BACKOFF__bounds_witness :
  1000 <= EXPONENTIAL_BACKOFF_ 2 /\
  EXPONENTIAL_BACKOFF_ 2 <= EXPONENTIAL_BACKOFF_ 7 /\
  EXPONENTIAL_BACKOFF_ 7 <= EXPONENTIAL_BACKOFF_CEILING_ /\
  (6 <= 2 -> EXPONENTIAL_BACKOFF_ 2 = EXPONENTIAL_BACKOFF_CEILING_).
Proof. apply (EXPONENTIAL_BACKOFF__bounds 2 7). lia. Defined.

(** *** The stored delay *)

Lemma open_keeps_schedule u p : keeps schedule (open u p).
Proof. js_frame. Qed.
Lemma close_keeps_schedule : keeps schedule close.
Proof. js_frame. Qed.
Lemma send_keeps_schedule msg : keeps schedule (send msg).
Proof. js_frame. Qed.

Lemma schedule_in_step s s' : schedule s' = schedule s -> in_step s -> in_step s'.
Proof.
  unfold schedule, in_step. intros [= _ Hg Ha Hn] [H1 H2].
  rewrite Hg, Ha, Hn. auto.
Qed.

Lemma step_in_step a s s' l :
  in_step s -> step a s = Some (s', l) ->
  in_step s' /\
  autoReconnect_ (sock s') = autoReconnect_ (sock s) /\
  getNextReconnect_ (sock s') = getNextReconnect_ (sock s).
Proof.
  intros Hi Hs.
  assert (Hk : forall s1, schedule s1 = schedule s ->
            in_step s1 /\ autoReconnect_ (sock s1) = autoReconnect_ (sock s) /\
            getNextReconnect_ (sock s1) = getNextReconnect_ (sock s)).
  { intros s1 H1. split; [apply (schedule_in_step s s1 H1 Hi)|].
    injection H1 as -> -> _ _. auto. }
  destruct a; unfold step in Hs.
  - apply Some_pair in Hs as [-> _]. rewrite entry_final. apply Hk, open_keeps_schedule.
  - apply Some_pair in Hs as [-> _]. rewrite entry_final. apply Hk, close_keeps_schedule.
  - apply Some_pair in Hs as [-> _]. rewrite entry_final. apply Hk, send_keeps_schedule.
  - destruct (transports (env s) !! h); [|discriminate].
    destruct (ReadyState_eqb _ _); [|discriminate].
    apply Some_pair in Hs as [-> _]. rewrite entry_final, set_env_then.
    unfold in_step, onOpen_, final. cbn. repeat split; reflexivity.
  - destruct (transports (env s) !! h); [|discriminate].
    destruct (ReadyState_eqb _ _); [discriminate|].
    apply Some_pair in Hs as [-> _]. rewrite entry_final, set_env_then.
    destruct Hi as [Hi1 Hi2]. unfold in_step, onClose_, final. cbn.
    destruct (closeExpected_ (sock s)); cbn; [auto|].
    destruct (autoReconnect_ (sock s)) eqn:Ha; cbn; rewrite ?Ha; repeat split;
      auto; lia.
  - destruct (transports (env s) !! h); [|discriminate].
    destruct (_ || _); [|discriminate].
    apply Some_pair in Hs as [-> _]. apply Hk. reflexivity.
  - destruct (transports (env s) !! h); [|discriminate].
    destruct (ReadyState_eqb _ _); [discriminate|].
    apply Some_pair in Hs as [-> _]. apply Hk. reflexivity.
  - destruct (timers (env s) !! id) as [p|]; [|discriminate].
    apply Some_pair in Hs as [-> _]. rewrite entry_final, set_env_then.
    apply Hk. apply (open_keeps_schedule _ _ (mkSys _ _)).
Qed.

(** X2.  Whatever the options (also with a backoff function of the
    caller) and whatever happens to the socket, the delay it holds for
    the next reconnect is the backoff function applied to the attempt
    counter, the counter is not negative, and the two settings are the
    ones chosen at construction. *)
Theorem nextReconnect__follows_attempt opt_params w acts s l :
  run acts (mkSys (new opt_params) w) = Some (s, l) ->
  nextReconnect_ (sock s) = getNextReconnect_ (sock s) (reconnectAttempt_ (sock s)) /\
  0 <= reconnectAttempt_ (sock s) /\
  autoReconnect_ (sock s) = autoReconnect_ (new opt_params) /\
  getNextReconnect_ (sock s) = getNextReconnect_ (new opt_params).
Proof.
  intros Hr.
  assert (H : in_step s /\
              autoReconnect_ (sock s) = autoReconnect_ (new opt_params) /\
              getNextReconnect_ (sock s) = getNextReconnect_ (new opt_params)).
  { refine (run_loop_invariant step (fun _ => True)
              (fun s => in_step s /\
                 autoReconnect_ (sock s) = autoReconnect_ (new opt_params) /\
                 getNextReconnect_ (sock s) = getNextReconnect_ (new opt_params))
              _ acts _ s l _ _ Hr).
    - intros a s0 s1 l0 _ (Hi & Ha & Hg) Hs.
      destruct (step_in_step a s0 s1 l0 Hi Hs) as (Hi1 & Ha1 & Hg1).
      split; [exact Hi1|]. split; congruence.
    - apply Forall_forall. auto.
    - split; [|auto]. split; cbn; [reflexivity | lia]. }
  destruct H as ([H1 H2] & H3 & H4). auto.
Qed.

Lemma nextReconnect__follows_attempt_witness :
  let s := state_after lost_after_open
             (start (Some (mkOptions None (Some linear_backoff) None))) in
  nextReconnect_ (sock s) = getNextReconnect_ (sock s) (reconnectAttempt_ (sock s)) /\
  0 <= reconnectAttempt_ (sock s) /\
  autoReconnect_ (sock s) = true /\
  getNextReconnect_ (sock s) = linear_backoff.
Proof.
  apply (nextReconnect__follows_attempt
           (Some (mkOptions None (Some linear_backoff) None)) init_world
           lost_after_open _
           (trace_of lost_after_open
              (start (Some (mkOptions None (Some linear_backoff) None))))).
  vm_compute. reflexivity.
Defined.

(** *** Preconditions of [open] and [send] *)

(** X3.  [open] on a socket that is open fails its assertion before it
    touches anything: the socket and the platform are as before, no
    transport is created and a pending reconnect timer is not cleared. *)
Theorem open_while_open_rejected u p s :
  result (isOpen s) = Ret true ->
  exists msg, open u p s = (Throw (AssertionError msg), s, []).
Proof.
  intros Ho. destruct s as [sk w].
  unfold isOpen, result, bind, this, platform, ret in Ho. cbn in Ho.
  unfold open, isOpen, bind, this, platform, assert, ret, throw. cbn.
  destruct (has_WebSocket w); cbn; [|eexists; reflexivity].
  destruct (webSocket_ sk) as [h|]; [|discriminate].
  destruct (transports w !! h) as [tr|]; [|discriminate].
  injection Ho as ->. cbn. eexists; reflexivity.
Qed.

Lemma open_while_open_rejected_witness :
  let s := state_after [CallOpen "ws://host" None; TransportOpens 0] (start None) in
  exists msg, open (Some "ws://other") None s = (Throw (AssertionError msg), s, []).
Proof.
  apply (open_while_open_rejected (Some "ws://other") None
           (state_after [CallOpen "ws://host" None; TransportOpens 0] (start None))).
  vm_compute. reflexivity.
Defined.

(** X4.  [send] transmits only on an open socket.  When the socket is
    not open (no transport, or one that is connecting, closing or closed)
    the assertion fails and nothing reaches a transport; when it is open
    the message goes to the current transport, once, and the socket is
    left as it was: nothing is buffered. *)
Theorem send_needs_open_socket message s :
  (result (isOpen s) = Ret false ->
   send message s =
     (Throw (AssertionError "Cannot send without an open socket"), s, [])) /\
  (result (isOpen s) = Ret true ->
   exists h, webSocket_ (sock s) = Some h /\
     send message s = (Ret tt, s, [TransportSend h message])).
Proof.
  destruct s as [sk w].
  unfold isOpen, send, result, bind, this, platform, assert, ret, throw, emit. cbn.
  destruct (webSocket_ sk) as [h|] eqn:Hw; cbn.
  - destruct (transports w !! h) as [tr|]; cbn.
    + destruct (ReadyState_eqb (readyState tr) OPEN); cbn.
      * split; [discriminate|]. intros _. exists h. rewrite Hw. auto.
      * split; [reflexivity | discriminate].
    + split; [reflexivity | discriminate].
  - split; [reflexivity | discriminate].
Qed.

Lemma send_needs_open_socket_witness :
  let s := state_after [CallOpen "ws://host" None; TransportOpens 0] (start None) in
  exists h, webSocket_ (sock s) = Some h /\
    send "hello" s = (Ret tt, s, [TransportSend h "hello"]).
Proof.
  intros s.
  apply (proj2 (send_needs_open_socket "hello" s)).
  vm_compute. reflexivity.
Defined.

(** *** Closing *)

(** X5.  After [close()] the socket has neither a transport nor a
    reconnect timer and is not open, and a second [close()] does nothing
    at all: in particular the transport is asked to close once only. *)
Theorem close_twice s :
  let s1 := final (close s) in
  result (close s) = Ret tt /\
  webSocket_ (sock s1) = None /\
  reconnectTimer_ (sock s1) = None /\
  result (isOpen s1) = Ret false /\
  close s1 = (Ret tt, s1, []).
Proof.
  destruct s as [sk w].
  unfold close, clearReconnectTimer_, Timer_clear, transport_close, isOpen,
    final, result, bind, this, platform, set, set_env, modify, emit, ret.
  cbn.
  destruct (reconnectTimer_ sk) as [id|]; cbn;
    destruct (webSocket_ sk) as [h|] eqn:Hw; cbn; rewrite ?Hw; cbn;
    repeat split; reflexivity.
Qed.

(** *** Auto-reconnect switched off *)

Lemma delete_timer_never_reconnects id :
  preserves never_reconnects
    (set_env (fun w => set_timers (delete id (timers w)) w)).
Proof.
  intros [sk w] [Ha Ht]. cbn in *. split; [exact Ha|]. cbn.
  rewrite Ht. apply delete_empty.
Qed.

Lemma new_WebSocket_never_reconnects u p :
  preserves never_reconnects (new_WebSocket u p).
Proof. intros [sk w] H. exact H. Qed.

Lemma set_transports_never_reconnects f :
  preserves never_reconnects (set_env (fun w => set_transports (f w) w)).
Proof. intros [sk w] H. exact H. Qed.

Lemma set_never_reconnects f :
  (forall sk, autoReconnect_ (f sk) = autoReconnect_ sk) ->
  preserves never_reconnects (set f).
Proof. intros Hf [sk w] [Ha Ht]. split; [cbn; rewrite Hf; exact Ha | exact Ht]. Qed.

#[local] Hint Resolve delete_timer_never_reconnects new_WebSocket_never_reconnects
  set_transports_never_reconnects : js.

Ltac js_never :=
  unfold open, close, send, onOpen_, onMessage_, onError_, isOpen,
    clearReconnectTimer_, transport_close, set_readyState;
  js_walk; try (apply set_never_reconnects; intros; reflexivity).

Lemma open_never_reconnects u p : preserves never_reconnects (open u p).
Proof. js_never. Qed.
Lemma close_never_reconnects : preserves never_reconnects close.
Proof. js_never. Qed.
Lemma send_never_reconnects msg : preserves never_reconnects (send msg).
Proof. js_never. Qed.
Lemma onOpen__never_reconnects : preserves never_reconnects onOpen_.
Proof. js_never. Qed.

Lemma close_no_callOnce : emits_only no_callOnce close.
Proof. js_frame. Qed.
Lemma onOpen__no_callOnce : emits_only no_callOnce onOpen_.
Proof. js_frame. Qed.

(** With auto-reconnect off a close event schedules nothing. *)
Lemma onClose__never_reconnects ev s :
  never_reconnects s ->
  never_reconnects (final (onClose_ ev s)) /\
  scheduled_delays (effects (onClose_ ev s)) = [].
Proof.
  intros [Ha Ht]. unfold onClose_, final, effects, never_reconnects. cbn.
  destruct (closeExpected_ (sock s)); cbn; [auto|].
  rewrite Ha. cbn. auto.
Qed.

Lemma step_never_reconnects a s s' l :
  never_reconnects s -> step a s = Some (s', l) ->
  never_reconnects s' /\ scheduled_delays l = [] /\ forall id, a <> TimerFires id.
Proof.
  intros Hn Hs. destruct a; unfold step in Hs.
  - apply Some_pair in Hs as [-> ->]. rewrite entry_final, scheduled_delays_entry.
    split; [apply open_never_reconnects, Hn|].
    split; [apply scheduled_delays_none, open_no_callOnce | discriminate].
  - apply Some_pair in Hs as [-> ->]. rewrite entry_final, scheduled_delays_entry.
    split; [apply close_never_reconnects, Hn|].
    split; [apply scheduled_delays_none, close_no_callOnce | discriminate].
  - apply Some_pair in Hs as [-> ->]. rewrite entry_final, scheduled_delays_entry.
    split; [apply send_never_reconnects, Hn|].
    split; [apply scheduled_delays_none, send_no_callOnce | discriminate].
  - destruct (transports (env s) !! h); [|discriminate].
    destruct (ReadyState_eqb _ _); [|discriminate].
    apply Some_pair in Hs as [-> ->].
    rewrite entry_final, scheduled_delays_entry, set_env_then.
    split; [apply onOpen__never_reconnects; exact Hn|].
    split; [apply scheduled_delays_none, onOpen__no_callOnce | discriminate].
  - destruct (transports (env s) !! h); [|discriminate].
    destruct (ReadyState_eqb _ _); [discriminate|].
    apply Some_pair in Hs as [-> ->].
    rewrite entry_final, scheduled_delays_entry, set_env_then.
    destruct (onClose__never_reconnects event
                (mkSys (sock s) (set_readyState h CLOSED (env s))) Hn) as [H1 H2].
    split; [exact H1|]. split; [exact H2 | discriminate].
  - destruct (transports (env s) !! h); [|discriminate].
    destruct (_ || _); [|discriminate].
    apply Some_pair in Hs as [-> ->]. cbn. split; [exact Hn|]. split; [reflexivity | discriminate].
  - destruct (transports (env s) !! h); [|discriminate].
    destruct (ReadyState_eqb _ _); [discriminate|].
    apply Some_pair in Hs as [-> ->]. cbn. split; [exact Hn|]. split; [reflexivity | discriminate].
  - destruct Hn as [_ Ht]. rewrite Ht, lookup_empty in Hs. discriminate.
Qed.

(** X6.  A socket constructed with [autoReconnect: false] never
    schedules a reconnect: in no run does it call [goog.Timer.callOnce],
    no timer is ever pending and none fires, so every call of [open] is
    the owner's. *)
Theorem autoReconnect_off_never_schedules getNext bin acts s l :
  run acts (start (Some (mkOptions (Some false) getNext bin))) = Some (s, l) ->
  scheduled_delays l = [] /\
  timers (env s) = ∅ /\
  forall id, TimerFires id ∉ acts.
Proof.
  assert (H : forall acts s0 s l,
            never_reconnects s0 -> run acts s0 = Some (s, l) ->
            never_reconnects s /\ scheduled_delays l = [] /\
            forall id, TimerFires id ∉ acts).
  { clear. induction acts as [|a acts IH]; intros s0 s l Hn Hr.
    - cbn in Hr. injection Hr as <- <-.
      split; [exact Hn|]. split; [reflexivity|]. intros id. apply not_elem_of_nil.
    - apply run_loop_cons in Hr as (s1 & l1 & l2 & Ha & Hr & ->).
      destruct (step_never_reconnects a s0 s1 l1 Hn Ha) as (Hn1 & Hl1 & Ho).
      destruct (IH s1 s l2 Hn1 Hr) as (Hn2 & Hl2 & Hf).
      split; [exact Hn2|]. rewrite scheduled_delays_app, Hl1, Hl2.
      split; [reflexivity|]. intros id Hin.
      apply elem_of_cons in Hin as [Heq|Hin]; [apply (Ho id); auto | apply (Hf id Hin)]. }
  intros Hr.
  assert (Hn : never_reconnects (start (Some (mkOptions (Some false) getNext bin))))
    by (split; reflexivity).
  destruct (H acts _ s l Hn Hr) as ([_ Ht] & Hl & Hf). auto.
Qed.

Lemma autoReconnect_off_never_schedules_witness :
  let o := Some (mkOptions (Some false) None None) in
  scheduled_delays (trace_of one_failure (start o)) = [] /\
  timers (env (state_after one_failure (start o))) = ∅ /\
  forall id, TimerFires id ∉ one_failure.
Proof.
  apply (autoReconnect_off_never_schedules None None one_failure
           (state_after one_failure (start (Some (mkOptions (Some false) None None))))).
  vm_compute. reflexivity.
Defined.

(** *** Reconnecting *)

(** The state an unexpected close leaves, with auto-reconnect on. *)
Lemma onClose__reconnect ev s :
  closeExpected_ (sock s) = false -> autoReconnect_ (sock s) = true ->
  onClose_ ev s =
    (Ret tt,
     mkSys
       (set_closeExpected_ false
          (set_nextReconnect_
             (getNextReconnect_ (sock s) (reconnectAttempt_ (sock s) + 1))
             (set_reconnectAttempt_ (reconnectAttempt_ (sock s) + 1)
                (set_reconnectTimer_ (Some (next_timer (env s)))
                   (set_webSocket_ None (sock s))))))
       (set_next_timer (S (next_timer (env s)))
          (set_timers
             (<[next_timer (env s) :=
                  mkPending (nextReconnect_ (sock s)) (url_ (sock s)) (protocol_ (sock s))]>
                (timers (env s))) (env s))),
     [DispatchClosed (code ev) (reason ev) (wasClean ev);
      TimerCallOnce (next_timer (env s)) (nextReconnect_ (sock s))
        (url_ (sock s)) (protocol_ (sock s))]).
Proof.
  intros Hc Ha. destruct s as [sk w]. cbn in Hc, Ha.
  unfold onClose_, bind, this, set, set_env, modify, emit, ret, Timer_callOnce. cbn.
  rewrite Hc. cbn. rewrite Ha. cbn. reflexivity.
Qed.

(** X7.  An unexpected close with auto-reconnect on leaves one pending
    timer, held in [reconnectTimer_], that carries the delay computed
    before and the URL and protocol of the lost connection.  When it
    fires (in a browser that has WebSocket) the socket opens a new
    transport to that URL, with that protocol if it is a non-empty string,
    holds it as its transport, holds no timer any more, and keeps the
    attempt counter the close has incremented. *)
Theorem reconnect_reopens_same_url h ev s s1 l1 s2 l2 :
  closeExpected_ (sock s) = false ->
  autoReconnect_ (sock s) = true ->
  has_WebSocket (env s) = true ->
  step (TransportCloses h ev) s = Some (s1, l1) ->
  step (TimerFires (next_timer (env s))) s1 = Some (s2, l2) ->
  reconnectTimer_ (sock s1) = Some (next_timer (env s)) /\
  timers (env s1) !! next_timer (env s) =
    Some (mkPending (nextReconnect_ (sock s)) (url_ (sock s)) (protocol_ (sock s))) /\
  l2 = [TimerClear (next_timer (env s));
        NewTransport (next_handle (env s)) (url_ (sock s))
          (if truthy_str (protocol_ (sock s)) then protocol_ (sock s) else None)] /\
  webSocket_ (sock s2) = Some (next_handle (env s)) /\
  reconnectTimer_ (sock s2) = None /\
  timers (env s2) !! next_timer (env s) = None /\
  url_ (sock s2) = url_ (sock s) /\
  protocol_ (sock s2) = protocol_ (sock s) /\
  reconnectAttempt_ (sock s2) = reconnectAttempt_ (sock s) + 1.
Proof.
  intros Hc Ha Hw Hs1 Hs2. unfold step in Hs1.
  destruct (transports (env s) !! h); [|discriminate].
  destruct (ReadyState_eqb _ _); [discriminate|].
  apply Some_pair in Hs1 as [Hs1 _]. rewrite entry_final, set_env_then in Hs1.
  rewrite (onClose__reconnect ev (mkSys _ _) Hc Ha) in Hs1.
  unfold final in Hs1. cbn in Hs1. subst s1.
  destruct s as [sk w]. cbn in *.
  split; [reflexivity|]. split; [apply lookup_insert_eq|].
  unfold step in Hs2. cbn [env timers set_next_timer set_timers] in Hs2.
  rewrite lookup_insert_eq in Hs2.
  apply Some_pair in Hs2 as [-> ->]. rewrite entry_final, entry_effects, set_env_then.
  unfold open, isOpen, clearReconnectTimer_, Timer_clear, new_WebSocket, result, final,
    effects, bind, this, platform, set, set_env, modify, emit, ret, assert. cbn.
  rewrite Hw. cbn.
  destruct (truthy_str (protocol_ sk)); cbn;
    repeat split; try reflexivity; apply lookup_delete_eq.
Qed.

Lemma reconnect_reopens_same_url_witness :
  let s := state_after [CallOpen "ws://host" (Some "chat"); TransportOpens 0] (start None) in
  let s1 := state_after [TransportCloses 0 lost] s in
  let s2 := state_after [TimerFires 0] s1 in
  reconnectTimer_ (sock s1) = Some 0%nat /\
  timers (env s1) !! 0%nat = Some (mkPending 1000 (Some "ws://host") (Some "chat")) /\
  trace_of [TimerFires 0] s1 =
    [TimerClear 0; NewTransport 1 (Some "ws://host") (Some "chat")] /\
  webSocket_ (sock s2) = Some 1%nat /\
  reconnectTimer_ (sock s2) = None /\
  timers (env s2) !! 0%nat = None /\
  url_ (sock s2) = Some "ws://host" /\
  protocol_ (sock s2) = Some "chat" /\
  reconnectAttempt_ (sock s2) = 1.
Proof.
  intros s s1 s2.
  apply (reconnect_reopens_same_url 0%nat lost s s1
           (trace_of [TransportCloses 0 lost] s) s2 (trace_of [TimerFires 0] s1));
    vm_compute; reflexivity.
Defined.

Lemma run_streak_without_close acts : forall s s' l,
  forallb keeps_streak acts = true ->
  forallb (fun a => negb (is_close a)) acts = true ->
  run acts s = Some (s', l) ->
  policy s' = policy s /\ scheduled_delays l = [].
Proof.
  induction acts as [|a acts IH]; intros s s' l Hk Hn Hr.
  - cbn in Hr. injection Hr as <- <-. auto.
  - apply run_loop_cons in Hr as (sa & la & lb & Hsa & Hr & ->).
    cbn in Hk, Hn. apply andb_true_iff in Hk as [Hka Hk].
    apply andb_true_iff in Hn as [Hna Hn]. apply negb_true_iff in Hna.
    destruct (step_streak a s sa la Hka Hna Hsa) as [Hpa Hla].
    destruct (IH sa s' lb Hk Hn Hr) as [Hpb Hlb].
    rewrite scheduled_delays_app, Hla, Hlb, Hpb, Hpa. auto.
Qed.

(** X8.  A transport that opens restarts the backoff: whatever the
    attempt counter was, the first unexpected close after the open event
    (with auto-reconnect on, and with timers firing, calls of [open] and
    [send], messages and errors in between) schedules the reconnect with
    the delay of attempt 0. *)
Theorem open_event_restarts_backoff h s s1 l1 acts s2 l2 h' ev s3 l3 :
  closeExpected_ (sock s) = false ->
  autoReconnect_ (sock s) = true ->
  step (TransportOpens h) s = Some (s1, l1) ->
  forallb keeps_streak acts = true ->
  forallb (fun a => negb (is_close a)) acts = true ->
  run acts s1 = Some (s2, l2) ->
  step (TransportCloses h' ev) s2 = Some (s3, l3) ->
  reconnectAttempt_ (sock s1) = 0 /\
  scheduled_delays l3 = [getNextReconnect_ (sock s) 0] /\
  reconnectAttempt_ (sock s3) = 1.
Proof.
  intros Hc Ha Hs1 Hk Hn Hr Hs3.
  assert (Hp1 : policy s1 =
                (true, getNextReconnect_ (sock s), false, 0, getNextReconnect_ (sock s) 0)).
  { unfold step in Hs1.
    destruct (transports (env s) !! h); [|discriminate].
    destruct (ReadyState_eqb _ _); [|discriminate].
    apply Some_pair in Hs1 as [-> _]. rewrite entry_final, set_env_then.
    unfold policy, onOpen_, final. cbn. rewrite Ha, Hc. reflexivity. }
  destruct (run_streak_without_close acts s1 s2 l2 Hk Hn Hr) as [Hp2 _].
  rewrite Hp1 in Hp2. injection Hp2 as H1 H2 H3 H4 H5.
  destruct (step_unexpected_close h' ev s2 s3 l3 H3 H1 Hs3) as [Hp3 Hl3].
  injection Hp1 as _ _ _ Hat _. injection Hp3 as _ _ _ Hat3 _.
  split; [exact Hat|]. split; [rewrite Hl3, H5; reflexivity|].
  rewrite Hat3, H4. reflexivity.
Qed.

Lemma open_event_restarts_backoff_witness :
  let s := state_after three_failures (start None) in
  let s' := state_after [TimerFires 2] s in
  let s1 := state_after [TransportOpens 3] s' in
  let acts := [CallSend "hello"; TransportMessage 3 "world"] in
  let s2 := state_after acts s1 in
  reconnectAttempt_ (sock s') = 3 /\
  reconnectAttempt_ (sock s1) = 0 /\
  scheduled_delays (trace_of [TransportCloses 3 lost] s2) = [1000] /\
  reconnectAttempt_ (sock (state_after [TransportCloses 3 lost] s2)) = 1.
Proof.
  intros s s' s1 acts s2. split; [vm_compute; reflexivity|].
  apply (open_event_restarts_backoff 3%nat s' s1 (trace_of [TransportOpens 3] s')
           acts s2 (trace_of acts s1) 3%nat lost
           (state_after [TransportCloses 3 lost] s2)
           (trace_of [TransportCloses 3 lost] s2));
    vm_compute; reflexivity.
Defined.

(** What a successful [open] does to the timer the socket holds. *)
Lemma open_clears_timer id u p s :
  reconnectTimer_ (sock s) = Some id ->
  has_WebSocket (env s) = true ->
  result (isOpen s) = Ret false ->
  result (open u p s) = Ret tt /\
  timers (env (final (open u p s))) !! id = None /\
  next_timer (env (final (open u p s))) = next_timer (env s) /\
  effects (open u p s) =
    [TimerClear id;
     NewTransport (next_handle (env s)) u (if truthy_str p then p else None)].
Proof.
  intros Hid Hw Ho. destruct s as [sk w]. cbn in Hid, Hw.
  unfold isOpen, result, bind, this, platform, ret in Ho. cbn in Ho.
  unfold open, isOpen, clearReconnectTimer_, Timer_clear, new_WebSocket, result, final,
    effects, bind, this, platform, set, set_env, modify, emit, ret, assert. cbn.
  rewrite Hw. cbn.
  assert (Hb : negb match webSocket_ sk with
                    | Some h => match transports w !! h with
                                | Some tr => ReadyState_eqb (readyState tr) OPEN
                                | None => false
                                end
                    | None => false
                    end = true).
  { destruct (webSocket_ sk) as [h|]; [|reflexivity].
    destruct (transports w !! h) as [tr|]; [|reflexivity].
    injection Ho as ->. reflexivity. }
  rewrite Hb. cbn. rewrite Hid. cbn.
  destruct (truthy_str p); cbn; repeat split; apply lookup_delete_eq.
Qed.

(** X9.  A call of [open] that succeeds (the browser has WebSocket, the
    socket is not open) while the reconnect timer the socket holds is
    pending clears that timer before it creates the transport; in no
    continuation of the run does the timer fire, so the reconnect does not
    open a second transport behind the owner's. *)
Theorem open_cancels_pending_reconnect opt_params before s l0 id q u p after s' l :
  run before (start opt_params) = Some (s, l0) ->
  reconnectTimer_ (sock s) = Some id ->
  timers (env s) !! id = Some q ->
  has_WebSocket (env s) = true ->
  result (isOpen s) = Ret false ->
  run (CallOpen u p :: after) s = Some (s', l) ->
  (exists l', l = TimerClear id ::
                  NewTransport (next_handle (env s)) (Some u)
                    (if truthy_str p then p else None) :: l') /\
  (TimerFires id ∉ after) /\
  timers (env s') !! id = None.
Proof.
  intros Hreach Hid Hq Hw Ho Hrun.
  apply run_loop_cons in Hrun as (s1 & l1 & l2 & Hc & Hrun & ->).
  unfold step in Hc. apply Some_pair in Hc as [-> ->].
  destruct (open_clears_timer id (Some u) p s Hid Hw Ho) as (Hres & Hn & Hnext & Heff).
  assert (Hret : retired id (entry Uncaught (open (Some u) p) s).1).
  { rewrite entry_final. split; [exact Hn|]. rewrite Hnext.
    apply (reachable_fresh _ _ _ _ Hreach id q Hq). }
  destruct (run_retired id after _ _ _ Hret Hrun) as [[Hn' _] Hni].
  split; [|split; [exact Hni | exact Hn']].
  rewrite entry_effects, Heff, Hres. cbn. eexists; reflexivity.
Qed.

Lemma open_cancels_pending_reconnect_witness :
  let s := state_after one_failure (start None) in
  let after := [TransportOpens 1; TransportCloses 1 lost] in
  (exists l', trace_of (CallOpen "ws://else" None :: after) s =
     TimerClear 0 :: NewTransport 1 (Some "ws://else") None :: l') /\
  (TimerFires 0 ∉ after) /\
  timers (env (state_after (CallOpen "ws://else" None :: after) s)) !! 0%nat = None.
Proof.
  intros s after.
  apply (open_cancels_pending_reconnect None one_failure s
           (trace_of one_failure (start None)) 0%nat
           (mkPending 1000 (Some "ws://host") None) "ws://else" None after);
    vm_compute; reflexivity.
Defined.

End WebSocketFacts.

(** ** The test channel *)

Module BrowserTestChannelFacts.
Import BrowserTestChannel.
Local Open Scope js_scope.

(** Evaluate a method on a machine whose relevant fields are known. *)
Ltac js_eval :=
  unfold onRequestData, onRequestComplete, connect, connectStage2_, checkBlocked_,
    checkBlockedCallback_, checkForEarlyNonBuffered_, abort, cancel, request,
    testLoadImageWithRetries, notifyServerReachabilityEvent, state_is,
    result, final, effects, bind, this, set, set_requests, emit, modify, ret;
  cbn.

Lemma set_requests_then {A} f (k : JS A) m :
  (set_requests f ;; k) m =
    k (mkMachine (self m) (f (requests m)) (next_request m) (probes m)).
Proof.
  unfold bind, set_requests, modify. cbn.
  destruct (k _) as [[[a|x] m1] l1]; reflexivity.
Qed.

(** *** Stage 2: the early exit *)

(** C2.  In state CONNECTION_TESTING on a transport that supports
    streaming, when the first chunk is the text "11111" and less than
    500 ms have passed since [connect()], the handler cancels the request
    in flight and calls [testConnectionFinished(this, true)] at once,
    without waiting for another chunk. *)
Theorem early_exit_on_sentinel now req rq r t0 m :
  state_ (self m) = Some CONNECTION_TESTING ->
  receivedIntermediateResult_ (self m) = false ->
  request_ (self m) = Some r ->
  requests m !! req = Some rq ->
  startTime_ (self m) = Some t0 ->
  now - t0 < 500 ->
  let out := onRequestData true now req "11111" m in
  result out = Ret tt /\
  effects out =
    [NotifyStatEvent TEST_STAGE_TWO_DATA_ONE; Cancel r;
     Debug "Test connection succeeded; using streaming connection";
     NotifyStatEvent NOPROXY; TestConnectionFinished true] /\
  requests (final out) = alter cancelled r (requests m) /\
  lastStatusCode_ (self (final out)) = 200 /\
  receivedIntermediateResult_ (self (final out)) = true.
Proof.
  intros Hst Hrec Hreq Hrq Ht0 Hms.
  destruct m as [c rs nr pr]. cbn in *.
  js_eval. rewrite Hrq. cbn. rewrite Hst. cbn. rewrite Hrec. cbn. rewrite Hreq. cbn.
  auto.
Qed.

Lemma early_exit_on_sentinel_witness :
  let m := machine_after true stage1_done (start (owner None None) parser) in
  let out := onRequestData true 100 1 "11111" m in
  result out = Ret tt /\
  effects out =
    [NotifyStatEvent TEST_STAGE_TWO_DATA_ONE; Cancel 1;
     Debug "Test connection succeeded; using streaming connection";
     NotifyStatEvent NOPROXY; TestConnectionFinished true] /\
  requests (final out) = alter cancelled 1%nat (requests m) /\
  lastStatusCode_ (self (final out)) = 200 /\
  receivedIntermediateResult_ (self (final out)) = true.
Proof.
  apply (early_exit_on_sentinel 100 1 (mkChannelRequest (-1) false None false) 1 0
           (machine_after true stage1_done (start (owner None None) parser)));
    [vm_compute; reflexivity | vm_compute; reflexivity | vm_compute; reflexivity
    | vm_compute; reflexivity | vm_compute; reflexivity | lia].
Defined.


(** *** Stage 2: cached results *)

(** C3, as amended.  With cached stage-2 results [connectStage2_] puts
    nothing on the network, changes nothing, and reports at once; what it
    reports is the negation of the cached value, which says whether the
    connection is buffered, while the report says whether it is not. *)
Theorem cached_stage2_reports_negation sx b m :
  getSecondTestResults (channel_ (self m)) = Some b ->
  let out := connectStage2_ sx m in
  result out = Ret tt /\
  final out = m /\
  effects out =
    [Debug "TestConnection: starting stage 2"; Debug "Buffered";
     NotifyStatEvent TEST_STAGE_TWO_START;
     NotifyStatEvent (if b then PROXY else NOPROXY);
     TestConnectionFinished (negb b)] /\
  existsb is_network (effects out) = false.
Proof.
  intros Hb. destruct m as [c rs nr pr]. cbn in *.
  js_eval. rewrite Hb. destruct b; cbn; auto.
Qed.

Lemma cached_stage2_reports_negation_witness :
  let m := start (owner None (Some true)) parser in
  result (connectStage2_ true m) = Ret tt /\
  final (connectStage2_ true m) = m /\
  effects (connectStage2_ true m) =
    [Debug "TestConnection: starting stage 2"; Debug "Buffered";
     NotifyStatEvent TEST_STAGE_TWO_START; NotifyStatEvent PROXY;
     TestConnectionFinished false] /\
  existsb is_network (effects (connectStage2_ true m)) = false.
Proof.
  apply (cached_stage2_reports_negation true true
           (start (owner None (Some true)) parser)).
  reflexivity.
Defined.

(** C3, the claim as stated fails: with the cached value [true] the
    outcome reported is [false], not the cached value. *)
Lemma cached_true_is_reported_as_false :
  let m := start (owner None (Some true)) parser in
  getSecondTestResults (channel_ (self m)) = Some true /\
  filter (fun e => is_finished e = true) (effects (connectStage2_ true m)) =
    [TestConnectionFinished false] /\
  (TestConnectionFinished true ∉ effects (connectStage2_ true m)).
Proof.
  cbn. split; [reflexivity|]. split; [reflexivity|].
  intros H. repeat (apply elem_of_cons in H as [H|H]; [discriminate|]).
  apply elem_of_nil in H. exact H.
Qed.

(** *** Stage 1: bad data *)

(** C5.  In state INIT, when the response text is empty or the parser
    throws on it, [onRequestData] returns normally (no exception leaves
    it), reports [testConnectionFailure(this, BAD_DATA)] exactly once and
    nothing else to the owner, puts nothing on the network (no retry), and
    leaves the channel as it was but for the status code it recorded: in
    particular the state stays INIT. *)
Theorem bad_data_reported_once sx now req rq responseText m :
  state_ (self m) = Some INIT ->
  requests m !! req = Some rq ->
  responseText = EmptyString \/ parser_ (self m) responseText = ParseThrows ->
  let out := onRequestData sx now req responseText m in
  result out = Ret tt /\
  count_eff is_bad_data_failure (effects out) = 1%nat /\
  count_eff is_report (effects out) = 1%nat /\
  existsb is_network (effects out) = false /\
  final out =
    mkMachine (set_lastStatusCode_ (getLastStatusCode rq) (self m))
      (requests m) (next_request m) (probes m) /\
  state_ (self (final out)) = Some INIT.
Proof.
  intros Hst Hrq Hbad.
  destruct m as [c rs nr pr]. cbn in *.
  js_eval. rewrite Hrq. cbn. rewrite Hst. cbn.
  destruct (String.eqb responseText EmptyString) eqn:He; cbn.
  - rewrite Hst. auto 10.
  - destruct Hbad as [->|Hp]; [discriminate|].
    rewrite Hp. cbn. rewrite Hst. auto 10.
Qed.

Lemma bad_data_reported_once_witness :
  let m := machine_after true stage1_started (start (owner None None) parser) in
  let out := onRequestData true 10 0 "<html>" m in
  result out = Ret tt /\
  count_eff is_bad_data_failure (effects out) = 1%nat /\
  count_eff is_report (effects out) = 1%nat /\
  existsb is_network (effects out) = false /\
  final out =
    mkMachine (set_lastStatusCode_ (-1) (self m))
      (requests m) (next_request m) (probes m) /\
  state_ (self (final out)) = Some INIT.
Proof.
  apply (bad_data_reported_once true 10 0
           (mkChannelRequest (-1) false None false) "<html>"
           (machine_after true stage1_started (start (owner None None) parser)));
    [vm_compute; reflexivity | vm_compute; reflexivity | right; vm_compute; reflexivity].
Defined.

(** X12.  A parser that returns [null] instead of throwing is not
    covered by the two guards: the TypeError of [respArray[0]] leaves the
    handler and nothing is reported. *)
Lemma parsed_null_escapes sx now req rq responseText m :
  state_ (self m) = Some INIT ->
  requests m !! req = Some rq ->
  responseText <> EmptyString ->
  parser_ (self m) responseText = Parsed JNull ->
  result (onRequestData sx now req responseText m) = Throw (TypeError "respArray is null") /\
  existsb is_report (effects (onRequestData sx now req responseText m)) = false.
Proof.
  intros Hst Hrq Hne Hp.
  destruct m as [c rs nr pr]. cbn in *.
  js_eval. rewrite Hrq. cbn. rewrite Hst. cbn.
  destruct (String.eqb_spec responseText EmptyString) as [->|_]; [contradiction|].
  cbn. rewrite Hp. cbn. auto.
Qed.

(** *** The blocked check *)



(** *** Stage 2: both chunks at once *)





(** *** Stage 1 without a blocked prefix *)

(** [connect]: with cached stage-1 results the state is chosen at once by
    the cached blocked prefix, without them the channel enters INIT. *)
Lemma connect_state sx now path m :
  let out := connect sx now path m in
  match getFirstTestResults (channel_ (self m)) with
  | Some firstTestResults =>
      let blockedPrefix := nth 1 firstTestResults JUndefined in
      blockedPrefix_ (self (final out)) = blockedPrefix /\
      if truthy blockedPrefix
      then state_ (self (final out)) = Some CHECKING_BLOCKED
      else state_ (self (final out)) = Some CONNECTION_TESTING /\
           existsb is_stage2_start (effects out) = true
  | None =>
      state_ (self (final out)) = Some INIT /\
      existsb is_stage2_start (effects out) = false
  end.
Proof.
  destruct m as [c rs nr pr]. js_eval.
  destruct (getFirstTestResults (channel_ c)) as [firstTestResults|]; cbn; [|auto].
  destruct (truthy (nth 1 firstTestResults JUndefined)); cbn; [auto|].
  destruct (getSecondTestResults (channel_ c)) as [[|]|]; cbn; auto.
  destruct sx; cbn; auto.
Qed.

(** The completion handler: it enters CHECKING_BLOCKED only from INIT
    with a truthy blocked prefix; from INIT with a falsy one, a request
    that succeeded takes it straight to CONNECTION_TESTING and stage 2. *)
Lemma onRequestComplete_state sx req m :
  truthy (blockedPrefix_ (self m)) = false ->
  let out := onRequestComplete sx req m in
  blockedPrefix_ (self (final out)) = blockedPrefix_ (self m) /\
  (state_ (self m) <> Some CHECKING_BLOCKED ->
   state_ (self (final out)) <> Some CHECKING_BLOCKED) /\
  (forall r rq,
     state_ (self m) = Some INIT -> request_ (self m) = Some r ->
     requests m !! r = Some rq -> getSuccess rq = true ->
     state_ (self (final out)) = Some CONNECTION_TESTING /\
     existsb is_stage2_start (effects out) = true).
Proof.
  intros Hf. destruct m as [c rs nr pr]. cbn in Hf. js_eval.
  destruct (request_ c) as [r|] eqn:Hr; cbn;
    [|repeat split; intros; simplify_eq; auto].
  destruct (rs !! r) as [rq|] eqn:Hrq; cbn;
    [|repeat split; intros; simplify_eq; auto].
  destruct (getSuccess rq) eqn:Hok; cbn;
    destruct (state_ c) as [[| |]|] eqn:Hst; cbn; rewrite ?Hf; cbn;
    try (destruct (getSecondTestResults (channel_ c)) as [[|]|]; cbn);
    try (destruct sx; cbn);
    try (destruct (_ <? 200); cbn);
    try (destruct (receivedIntermediateResult_ c); cbn);
    repeat split; intros; simplify_eq; cbn; rewrite ?Hst; auto; try discriminate;
    congruence.
Qed.

(** The other handlers never enter CHECKING_BLOCKED and never touch the
    stored blocked prefix, but for stage-1 data. *)
Lemma onRequestData_state sx now req responseText m :
  state_ (self (final (onRequestData sx now req responseText m))) = state_ (self m).
Proof.
  destruct m as [c rs nr pr]. js_eval.
  destruct (rs !! req) as [rq|]; cbn; [|reflexivity].
  destruct (state_ c) as [[| |]|] eqn:Hst; cbn; rewrite ?Hst; try reflexivity.
  - destruct (String.eqb responseText EmptyString); cbn; rewrite ?Hst; [reflexivity|].
    destruct (parser_ c responseText) as [|v]; cbn; rewrite ?Hst; [reflexivity|].
    destruct (js_index v 0); cbn; rewrite ?Hst; [|reflexivity].
    destruct (js_index v 1); cbn; rewrite ?Hst; reflexivity.
  - destruct (receivedIntermediateResult_ c); cbn; rewrite ?Hst; [reflexivity|].
    destruct (String.eqb responseText "11111"); cbn; rewrite ?Hst; [|reflexivity].
    destruct (sx || _); cbn; rewrite ?Hst; [|reflexivity].
    destruct (request_ c); cbn; rewrite ?Hst; reflexivity.
Qed.

Lemma checkBlockedCallback__state sx succeeded m :
  state_ (self m) <> Some CHECKING_BLOCKED ->
  state_ (self (final (checkBlockedCallback_ sx succeeded m))) <> Some CHECKING_BLOCKED.
Proof.
  intros Hne. destruct m as [c rs nr pr]. js_eval.
  destruct succeeded; cbn; [|exact Hne].
  destruct (getSecondTestResults (channel_ c)) as [[|]|]; cbn; try discriminate.
  destruct sx; cbn; discriminate.
Qed.

Lemma abort_state m : state_ (self (final (abort m))) = state_ (self m).
Proof.
  destruct m as [c rs nr pr]. js_eval.
  destruct (request_ c); reflexivity.
Qed.

(** One turn of the loop that ends with a falsy blocked prefix, taken
    from a state with a falsy one. *)
Lemma turn_skips_CHECKING_BLOCKED sx e m m' l :
  falsy_blockedPrefix m -> falsy_blockedPrefix m' ->
  state_ (self m) <> Some CHECKING_BLOCKED ->
  step sx e m = Some (m', l) ->
  let t := mkTurn m e m' l in
  state_ (self m') <> Some CHECKING_BLOCKED /\
  (INIT_completion t \/ cached_connect t ->
   state_ (self m') = Some CONNECTION_TESTING /\
   existsb is_stage2_start l = true).
Proof.
  intros Hf Hf' Hne Hs. unfold falsy_blockedPrefix in *.
  destruct e; unfold step in Hs.
  - (* connect *)
    apply Some_pair in Hs as [-> ->]. rewrite entry_final in *.
    pose proof (connect_state sx now path m) as Hc. cbn zeta in Hc.
    destruct (getFirstTestResults (channel_ (self m))) as [fr|] eqn:Hfr.
    + destruct Hc as [Hb Hc]. rewrite Hb in Hf'. rewrite Hf' in Hc.
      destruct Hc as [Hst Hstart]. split; [rewrite Hst; discriminate|].
      intros _. split; [exact Hst|].
      rewrite entry_effects, existsb_app, Hstart. reflexivity.
    + destruct Hc as [Hst _]. split; [rewrite Hst; discriminate|].
      intros [[_ (? & ? & ? & [=] & _)] | [_ Hsome]]; cbn in Hsome.
      rewrite Hfr in Hsome. destruct Hsome as [? [=]].
  - (* abort *)
    apply Some_pair in Hs as [-> ->]. rewrite entry_final.
    rewrite abort_state. split; [exact Hne|].
    intros [[_ (? & ? & ? & [=] & _)] | [(? & ? & [=]) _]].
  - apply Some_pair in Hs as [-> ->]. split; [exact Hne|].
    intros [[_ (? & ? & ? & [=] & _)] | [(? & ? & [=]) _]].
  - apply Some_pair in Hs as [-> ->]. split; [exact Hne|].
    intros [[_ (? & ? & ? & [=] & _)] | [(? & ? & [=]) _]].
  - (* data *)
    destruct (live m req); [|discriminate].
    apply Some_pair in Hs as [-> ->]. rewrite entry_final, set_requests_then.
    rewrite onRequestData_state. split; [exact Hne|].
    intros [[_ (? & ? & ? & [=] & _)] | [(? & ? & [=]) _]].
  - (* completion *)
    unfold live in Hs. destruct (requests m !! req) as [rq0|] eqn:Hrq0; [|discriminate].
    destruct (negb (rq_done rq0)); [|discriminate].
    apply Some_pair in Hs as [-> ->]. rewrite entry_final in *.
    rewrite entry_effects, set_requests_then in *.
    match goal with
    | |- context [onRequestComplete sx req ?m1] =>
        pose proof (onRequestComplete_state sx req m1 Hf) as (_ & Hkeep & Hinit)
    end.
    split; [apply Hkeep, Hne|].
    intros [[Hst (req' & status' & err' & Hev & Hreq)] | [(? & ? & [=]) _]].
    cbn in Hst, Hreq, Hev. injection Hev as Hr1 Hr2 Hr3 Hr4. subst req' status' success err'.
    destruct (Hinit req (mkChannelRequest status true lastError true) Hst Hreq)
      as [Hct Hstart]; [cbn; rewrite lookup_alter_eq, Hrq0; reflexivity | reflexivity |].
    split; [exact Hct|]. rewrite existsb_app, Hstart. reflexivity.
  - (* probe callback *)
    destruct (probes m) as [|n]; [discriminate|].
    apply Some_pair in Hs as [-> ->]. rewrite entry_final.
    split.
    + unfold bind at 1. cbn.
      match goal with
      | |- context [checkBlockedCallback_ sx succeeded ?m1] =>
          pose proof (checkBlockedCallback__state sx succeeded m1 Hne) as Hcb
      end.
      unfold final in *.
      destruct (checkBlockedCallback_ sx succeeded _) as [[[a|x] m2] l2]; exact Hcb.
    + intros [[_ (? & ? & ? & [=] & _)] | [(? & ? & [=]) _]].
Qed.

Lemma turns_skip_CHECKING_BLOCKED sx evs : forall m,
  falsy_blockedPrefix m ->
  state_ (self m) <> Some CHECKING_BLOCKED ->
  Forall (fun t => falsy_blockedPrefix (after t)) (turns sx evs m) ->
  Forall (fun t =>
            state_ (self (after t)) <> Some CHECKING_BLOCKED /\
            (INIT_completion t \/ cached_connect t ->
             state_ (self (after t)) = Some CONNECTION_TESTING /\
             existsb is_stage2_start (emitted t) = true))
    (turns sx evs m).
Proof.
  induction evs as [|e evs IH]; intros m Hf Hne Hall; cbn in *; [constructor|].
  destruct (step sx e m) as [[m1 l]|] eqn:Hs; [|constructor].
  inversion Hall as [|t ts Hf1 Hrest]; subst. cbn in Hf1.
  destruct (turn_skips_CHECKING_BLOCKED sx e m m1 l Hf Hf1 Hne Hs) as [Hne1 Hgo].
  constructor; [split; [exact Hne1 | exact Hgo]|].
  apply IH; assumption.
Qed.

(** C4, as amended.  In every run of a test channel in which the blocked
    prefix it holds is falsy after every turn, whether it came with the
    stage-1 response or from the cached stage-1 results, the state
    CHECKING_BLOCKED is never entered, and the channel goes straight to
    CONNECTION_TESTING with [connectStage2_] called in the same turn:
    from the INIT completion handler when stage 1 ran over the network,
    and from [connect] itself, INIT being skipped, when the cached results
    are used. *)
Theorem falsy_blockedPrefix_skips_CHECKING_BLOCKED sx channel parser evs :
  Forall (fun t => falsy_blockedPrefix (after t))
    (turns sx evs (start channel parser)) ->
  Forall (fun t =>
            state_ (self (after t)) <> Some CHECKING_BLOCKED /\
            (INIT_completion t \/ cached_connect t ->
             state_ (self (after t)) = Some CONNECTION_TESTING /\
             existsb is_stage2_start (emitted t) = true))
    (turns sx evs (start channel parser)).
Proof.
  apply turns_skip_CHECKING_BLOCKED; [reflexivity | discriminate].
Qed.

Lemma falsy_blockedPrefix_skips_CHECKING_BLOCKED_witness :
  Forall (fun t =>
            state_ (self (after t)) <> Some CHECKING_BLOCKED /\
            (INIT_completion t \/ cached_connect t ->
             state_ (self (after t)) = Some CONNECTION_TESTING /\
             existsb is_stage2_start (emitted t) = true))
    (turns true stage1_done (start (owner None None) parser)).
Proof.
  apply (falsy_blockedPrefix_skips_CHECKING_BLOCKED true (owner None None) parser
           stage1_done).
  vm_compute. repeat constructor.
Defined.

(** C4, the claim as stated fails for the cached results: [connect]
    itself starts stage 2; the channel is never in state INIT and no
    completion handler runs. *)
Lemma cached_results_start_stage2_in_connect :
  let ts := turns true stage1_started
              (start (owner (Some [JStr "hostA"; JStr EmptyString]) None) parser) in
  Forall (fun t => falsy_blockedPrefix (after t)) ts /\
  exists t,
    ts = [t] /\
    state_ (self (after t)) = Some CONNECTION_TESTING /\
    existsb is_stage2_start (emitted t) = true /\
    state_ (self (before t)) <> Some INIT /\
    ~ INIT_completion t.
Proof.
  cbn zeta. split; [vm_compute; repeat constructor|].
  eexists. split; [vm_compute; reflexivity|]. cbn.
  split; [reflexivity|]. split; [reflexivity|].
  split; [discriminate|]. intros [Hst _]. discriminate Hst.
Qed.

(** *** Stage 1: a response that parses *)

(** X10.  In state INIT a non-empty response that the parser turns into
    an array sets [hostPrefix_] to the owner's correction of the first
    element and [blockedPrefix_] to the second element as it is
    ([undefined] for an element the array does not have); the handler
    reports nothing, requests nothing and stays in INIT. *)
Theorem stage1_response_sets_prefixes sx now req rq responseText items m :
  state_ (self m) = Some INIT ->
  requests m !! req = Some rq ->
  responseText <> EmptyString ->
  parser_ (self m) responseText = Parsed (JArr items) ->
  let out := onRequestData sx now req responseText m in
  result out = Ret tt /\
  hostPrefix_ (self (final out)) =
    correctHostPrefix (channel_ (self m)) (nth 0 items JUndefined) /\
  blockedPrefix_ (self (final out)) = nth 1 items JUndefined /\
  state_ (self (final out)) = Some INIT /\
  lastStatusCode_ (self (final out)) = getLastStatusCode rq /\
  effects out = [Debug "TestConnection: Got data for stage 1"].
Proof.
  intros Hst Hrq Hne Hp.
  destruct m as [c rs nr pr]. cbn in *.
  js_eval. rewrite Hrq. cbn. rewrite Hst. cbn.
  destruct (String.eqb_spec responseText EmptyString) as [->|_]; [contradiction|].
  cbn. rewrite Hp. cbn. rewrite Hst. auto 10.
Qed.

Lemma stage1_response_sets_prefixes_witness :
  let m := machine_after true stage1_started (start (owner None None) parser) in
  let out := onRequestData true 10 0 "[hostA,]" m in
  result out = Ret tt /\
  hostPrefix_ (self (final out)) = JStr "hostA" /\
  blockedPrefix_ (self (final out)) = JStr EmptyString /\
  state_ (self (final out)) = Some INIT /\
  lastStatusCode_ (self (final out)) = -1 /\
  effects out = [Debug "TestConnection: Got data for stage 1"].
Proof.
  apply (stage1_response_sets_prefixes true 10 0
           (mkChannelRequest (-1) false None false) "[hostA,]"
           [JStr "hostA"; JStr EmptyString]
           (machine_after true stage1_started (start (owner None None) parser)));
    [vm_compute; reflexivity | vm_compute; reflexivity | discriminate
    | vm_compute; reflexivity].
Defined.

Lemma parsed_null_escapes_witness :
  let m := machine_after true stage1_started
             (start (owner None None) json_like_parser) in
  result (onRequestData true 10 0 "null" m) = Throw (TypeError "respArray is null") /\
  existsb is_report (effects (onRequestData true 10 0 "null" m)) = false.
Proof.
  apply (parsed_null_escapes true 10 0 (mkChannelRequest (-1) false None false) "null"
           (machine_after true stage1_started
              (start (owner None None) json_like_parser)));
    [vm_compute; reflexivity | vm_compute; reflexivity | discriminate
    | vm_compute; reflexivity].
Defined.


(** *** A request that fails *)

(** X13.  When the request the channel holds has failed, the completion
    handler reports [testConnectionFailure] once, with the request's last
    error, counts the failure for the stage the channel is in, puts
    nothing on the network (no retry) and changes nothing but the status
    code: the state stays what it was. *)
Theorem failed_request_reported_once sx req r rq m :
  request_ (self m) = Some r ->
  requests m !! r = Some rq ->
  getSuccess rq = false ->
  let out := onRequestComplete sx req m in
  result out = Ret tt /\
  final out =
    mkMachine (set_lastStatusCode_ (getLastStatusCode rq) (self m))
      (requests m) (next_request m) (probes m) /\
  filter (fun e => is_report e = true) (effects out) =
    [TestConnectionFailure (getLastError rq)] /\
  existsb is_network (effects out) = false /\
  filter (fun e => match e with NotifyStatEvent _ => true | _ => false end = true)
    (effects out) =
    match state_ (self m) with
    | Some INIT => [NotifyStatEvent TEST_STAGE_ONE_FAILED]
    | Some CONNECTION_TESTING => [NotifyStatEvent TEST_STAGE_TWO_FAILED]
    | _ => []
    end.
Proof.
  intros Hr Hrq Hf. destruct m as [c rs nr pr]. cbn in *.
  js_eval. rewrite Hr. cbn. rewrite Hrq. cbn. rewrite Hf. cbn.
  destruct (state_ c) as [[| |]|]; cbn; auto 10.
Qed.

Lemma failed_request_reported_once_witness :
  let m := machine_after true stage1_started (start (owner None None) parser) in
  let out := onRequestComplete true 0 m in
  result out = Ret tt /\
  final out =
    mkMachine (set_lastStatusCode_ (-1) (self m))
      (requests m) (next_request m) (probes m) /\
  filter (fun e => is_report e = true) (effects out) = [TestConnectionFailure None] /\
  existsb is_network (effects out) = false /\
  filter (fun e => match e with NotifyStatEvent _ => true | _ => false end = true)
    (effects out) =
    match state_ (self m) with
    | Some INIT => [NotifyStatEvent TEST_STAGE_ONE_FAILED]
    | Some CONNECTION_TESTING => [NotifyStatEvent TEST_STAGE_TWO_FAILED]
    | _ => []
    end.
Proof.
  apply (failed_request_reported_once true 0 0 (mkChannelRequest (-1) false None false)
           (machine_after true stage1_started (start (owner None None) parser)));
    vm_compute; reflexivity.
Defined.

(** *** The blocked check, end to end *)

(** The INIT completion handler with a truthy blocked prefix. *)
Lemma onRequestComplete_blocked sx req r rq m :
  state_ (self m) = Some INIT ->
  request_ (self m) = Some r ->
  requests m !! r = Some rq ->
  getSuccess rq = true ->
  truthy (blockedPrefix_ (self m)) = true ->
  onRequestComplete sx req m =
    (Ret tt,
     mkMachine
       (set_state_ (Some CHECKING_BLOCKED)
          (set_lastStatusCode_ (getLastStatusCode rq) (self m)))
       (requests m) (next_request m) (S (probes m)),
     [Debug "TestConnection: request complete for initial check";
      TestLoadImageWithRetries
        (makeUnique (createDataUri (channel_ (self m)) (blockedPrefix_ (self m))
                       "/mail/images/cleardot.gif"))
        BLOCKED_TIMEOUT_ BLOCKED_RETRIES_ BLOCKED_PAUSE_BETWEEN_RETRIES_;
      NotifyServerReachabilityEvent REQUEST_MADE]).
Proof.
  intros Hst Hr Hrq Hok Ht. destruct m as [c rs nr pr]. cbn in *.
  js_eval. rewrite Hr. cbn. rewrite Hrq. cbn. rewrite Hok. cbn. rewrite Hst. cbn.
  rewrite Ht. reflexivity.
Qed.

(** X14.  When stage 1 completes with a truthy blocked prefix, the
    channel enters CHECKING_BLOCKED and hands the image prober one probe
    of the blocked host, made unique, with timeout 5000 ms, 3 retries and
    2000 ms between them.  When the prober then calls back with failure,
    the channel counts CHANNEL_BLOCKED, reports [testConnectionBlocked]
    and stays in CHECKING_BLOCKED: no stage-2 request is made. *)
Theorem blocked_channel_never_tests_connection sx r status lastError m m1 l1 m2 l2 :
  state_ (self m) = Some INIT ->
  request_ (self m) = Some r ->
  truthy (blockedPrefix_ (self m)) = true ->
  step sx (RequestComplete r status true lastError) m = Some (m1, l1) ->
  step sx (ProbeCallback false) m1 = Some (m2, l2) ->
  state_ (self m1) = Some CHECKING_BLOCKED /\
  filter (fun e => is_probe e = true) l1 =
    [TestLoadImageWithRetries
       (makeUnique (createDataUri (channel_ (self m)) (blockedPrefix_ (self m))
                      "/mail/images/cleardot.gif")) 5000 3 2000] /\
  l2 = [NotifyStatEvent CHANNEL_BLOCKED; TestConnectionBlocked] /\
  state_ (self m2) = Some CHECKING_BLOCKED /\
  existsb is_stage2_request (l1 ++ l2) = false /\
  existsb is_stage2_start (l1 ++ l2) = false.
Proof.
  intros Hst Hr Ht Hs1 Hs2. unfold step, live in Hs1.
  destruct (requests m !! r) as [rq0|] eqn:Hrq0; [|discriminate].
  destruct (negb (rq_done rq0)); [|discriminate].
  apply Some_pair in Hs1 as [-> ->].
  rewrite entry_final, entry_effects, set_requests_then in *.
  rewrite (onRequestComplete_blocked sx r r
             (mkChannelRequest status true lastError true) (mkMachine _ _ _ _))
    in *; try assumption; try reflexivity;
    try (cbn; rewrite lookup_alter_eq, Hrq0; reflexivity).
  unfold final, effects, result in *. cbn [fst snd] in *.
  unfold step in Hs2. cbn [probes] in Hs2.
  apply Some_pair in Hs2 as [-> ->]. rewrite entry_final, entry_effects.
  destruct m as [c rs nr pr]. cbn in *.
  js_eval. repeat split; reflexivity.
Qed.

Lemma blocked_channel_never_tests_connection_witness :
  let m := machine_after true stage1_blocked (start (owner None None) blocking_parser) in
  let m1 := machine_after true [RequestComplete 0 200 true None] m in
  let m2 := machine_after true [ProbeCallback false] m1 in
  state_ (self m1) = Some CHECKING_BLOCKED /\
  state_ (self m2) = Some CHECKING_BLOCKED /\
  step true (ProbeCallback false) m1 =
    Some (m2, [NotifyStatEvent CHANNEL_BLOCKED; TestConnectionBlocked]).
Proof.
  intros m m1 m2.
  assert (H1 : exists l1, step true (RequestComplete 0 200 true None) m = Some (m1, l1))
    by (eexists; vm_compute; reflexivity).
  destruct H1 as [l1 H1].
  assert (H2 : exists l2, step true (ProbeCallback false) m1 = Some (m2, l2))
    by (eexists; vm_compute; reflexivity).
  destruct H2 as [l2 H2].
  destruct (blocked_channel_never_tests_connection true 0 200 None m m1 l1 m2 l2)
    as (Ha & _ & Hb & Hc & _); try assumption; try (vm_compute; reflexivity).
  split; [exact Ha|]. split; [exact Hc|]. rewrite H2, Hb. reflexivity.
Defined.

(** *** Stage 2 without streaming support *)

(** How the event loop delivers data and completions. *)
Lemma step_RequestData sx now req status responseText m m' l :
  step sx (RequestData now req status responseText) m = Some (m', l) ->
  exists rq0,
    requests m !! req = Some rq0 /\
    let m0 := mkMachine (self m)
                (alter (fun rq => mkChannelRequest status (getSuccess rq)
                                    (getLastError rq) false) req (requests m))
                (next_request m) (probes m) in
    requests m0 !! req = Some (mkChannelRequest status (getSuccess rq0)
                                 (getLastError rq0) false) /\
    m' = final (onRequestData sx now req responseText m0) /\
    l = effects (onRequestData sx now req responseText m0) ++
        match result (onRequestData sx now req responseText m0) with
        | Ret _ => []
        | Throw x => [Uncaught x]
        end.
Proof.
  unfold step, live. destruct (requests m !! req) as [rq0|] eqn:Hrq; [|discriminate].
  destruct (negb (rq_done rq0)); [|discriminate].
  intros Hs. apply Some_pair in Hs as [-> ->]. exists rq0. split; [reflexivity|].
  cbn zeta. rewrite entry_final, entry_effects, set_requests_then.
  split; [|split; reflexivity].
  cbn. rewrite lookup_alter_eq, Hrq. reflexivity.
Qed.

Lemma step_RequestComplete sx req status success lastError m m' l :
  step sx (RequestComplete req status success lastError) m = Some (m', l) ->
  let m0 := mkMachine (self m)
              (alter (fun _ => mkChannelRequest status success lastError true)
                 req (requests m))
              (next_request m) (probes m) in
  requests m0 !! req = Some (mkChannelRequest status success lastError true) /\
  m' = final (onRequestComplete sx req m0) /\
  l = effects (onRequestComplete sx req m0) ++
      match result (onRequestComplete sx req m0) with
      | Ret _ => []
      | Throw x => [Uncaught x]
      end.
Proof.
  unfold step, live. destruct (requests m !! req) as [rq0|] eqn:Hrq; [|discriminate].
  destruct (negb (rq_done rq0)); [|discriminate].
  intros Hs. apply Some_pair in Hs as [-> ->].
  cbn zeta. rewrite entry_final, entry_effects, set_requests_then.
  split; [|split; reflexivity].
  cbn. rewrite lookup_alter_eq, Hrq. reflexivity.
Qed.

(** The sentinel, too late for the early exit. *)
Lemma onRequestData_sentinel_late now req rq t0 m :
  state_ (self m) = Some CONNECTION_TESTING ->
  receivedIntermediateResult_ (self m) = false ->
  requests m !! req = Some rq ->
  startTime_ (self m) = Some t0 ->
  MIN_TIME_EXPECTED_BETWEEN_DATA_ <= now - t0 ->
  onRequestData false now req "11111" m =
    (Ret tt,
     mkMachine
       (set_firstTime_ (Some now)
          (set_receivedIntermediateResult_ true
             (set_lastStatusCode_ (getLastStatusCode rq) (self m))))
       (requests m) (next_request m) (probes m),
     [NotifyStatEvent TEST_STAGE_TWO_DATA_ONE]).
Proof.
  intros Hst Hrec Hrq Ht0 Hms. destruct m as [c rs nr pr]. cbn in *.
  js_eval. rewrite Hrq. cbn. rewrite Hst. cbn. rewrite Hrec. cbn. rewrite Ht0. cbn.
  destruct (Z.ltb_spec (now - t0) MIN_TIME_EXPECTED_BETWEEN_DATA_) as [Hlt|_]; [lia|].
  reflexivity.
Qed.

(** Any chunk after the sentinel was seen on its own. *)
Lemma onRequestData_second sx now req rq responseText m :
  state_ (self m) = Some CONNECTION_TESTING ->
  receivedIntermediateResult_ (self m) = true ->
  requests m !! req = Some rq ->
  onRequestData sx now req responseText m =
    (Ret tt,
     mkMachine
       (set_lastTime_ (Some now)
          (set_lastStatusCode_ (getLastStatusCode rq) (self m)))
       (requests m) (next_request m) (probes m),
     [NotifyStatEvent TEST_STAGE_TWO_DATA_TWO]).
Proof.
  intros Hst Hrec Hrq. destruct m as [c rs nr pr]. cbn in *.
  js_eval. rewrite Hrq. cbn. rewrite Hst. cbn. rewrite Hrec. reflexivity.
Qed.

(** The stage-2 completion handler without streaming support. *)
Lemma onRequestComplete_trident req r rq m :
  state_ (self m) = Some CONNECTION_TESTING ->
  request_ (self m) = Some r ->
  requests m !! r = Some rq ->
  getSuccess rq = true ->
  filter (fun e => is_report e = true) (effects (onRequestComplete false req m)) =
    [TestConnectionFinished
       (negb (to_number (lastTime_ (self m)) - to_number (firstTime_ (self m)) <? 200))] /\
  result (onRequestComplete false req m) = Ret tt.
Proof.
  intros Hst Hr Hrq Hok. destruct m as [c rs nr pr]. cbn in *.
  js_eval. rewrite Hr. cbn. rewrite Hrq. cbn. rewrite Hok. cbn. rewrite Hst. cbn.
  destruct (_ <? 200); cbn; auto.
Qed.

(** X15.  Without streaming support the test is decided by timing
    alone.  When the sentinel arrives too late for the early exit (500 ms
    or more after [connect]), a further chunk arrives and the request
    completes with success, the channel reports unbuffered exactly when
    at least 200 ms lie between the two chunks. *)
Theorem trident_gap_decides r t0 t1 t2 st1 st2 st3 responseText lastError
    m m1 l1 m2 l2 m3 l3 :
  state_ (self m) = Some CONNECTION_TESTING ->
  receivedIntermediateResult_ (self m) = false ->
  request_ (self m) = Some r ->
  startTime_ (self m) = Some t0 ->
  500 <= t1 - t0 ->
  step false (RequestData t1 r st1 "11111") m = Some (m1, l1) ->
  step false (RequestData t2 r st2 responseText) m1 = Some (m2, l2) ->
  step false (RequestComplete r st3 true lastError) m2 = Some (m3, l3) ->
  filter (fun e => is_report e = true) (l1 ++ l2 ++ l3) =
    [TestConnectionFinished (negb (t2 - t1 <? 200))].
Proof.
  intros Hst Hrec Hr Ht0 Hms Hs1 Hs2 Hs3.
  apply step_RequestData in Hs1 as (rq1 & _ & Hl1 & Hm1 & Hl1'). cbn zeta in *.
  rewrite (onRequestData_sentinel_late t1 r _ t0 (mkMachine _ _ _ _) Hst Hrec Hl1 Ht0 Hms)
    in Hm1, Hl1'.
  unfold final, effects, result in Hm1, Hl1'. cbn [fst snd] in Hm1, Hl1'. subst m1 l1.
  apply step_RequestData in Hs2 as (rq2 & _ & Hl2 & Hm2 & Hl2').
  cbn [self requests next_request probes getLastStatusCode] in *.
  assert (Hst1 : forall c', state_ (set_firstTime_ (Some t1)
                   (set_receivedIntermediateResult_ true
                      (set_lastStatusCode_ c' (self m)))) = Some CONNECTION_TESTING)
    by (intros; destruct (self m); exact Hst).
  rewrite (onRequestData_second false t2 r _ responseText (mkMachine _ _ _ _)
             (Hst1 _) eq_refl Hl2) in Hm2, Hl2'.
  unfold final, effects, result in Hm2, Hl2'. cbn [fst snd] in Hm2, Hl2'. subst m2 l2.
  apply step_RequestComplete in Hs3 as (Hl3 & _ & Hl3').
  cbn [self requests next_request probes getLastStatusCode] in *.
  match type of Hl3' with
  | _ = effects (onRequestComplete false r ?m0) ++ _ =>
      destruct (onRequestComplete_trident r r
                  (mkChannelRequest st3 true lastError true) m0) as [Hrep Hres];
        [destruct (self m); exact Hst | destruct (self m); exact Hr | exact Hl3
        | reflexivity |]
  end.
  rewrite Hres, app_nil_r in Hl3'. subst l3. cbn [app].
  rewrite !filter_cons_False by (cbn; discriminate).
  rewrite Hrep. destruct (self m); reflexivity.
Qed.

Lemma trident_gap_decides_witness :
  let m := machine_after false stage1_done (start (owner None None) parser) in
  let e1 := RequestData 600 1 200 "11111" in
  let e2 := RequestData 2600 1 200 "111112" in
  let e3 := RequestComplete 1 200 true None in
  let m1 := machine_after false [e1] m in
  let m2 := machine_after false [e2] m1 in
  filter (fun e => is_report e = true)
    (trace_after false [e1] m ++ trace_after false [e2] m1 ++
     trace_after false [e3] m2) =
    [TestConnectionFinished true].
Proof.
  intros m e1 e2 e3 m1 m2.
  apply (trident_gap_decides 1 0 600 2600 200 200 200 "111112" None
           m m1 (trace_after false [e1] m) m2 (trace_after false [e2] m1)
           (machine_after false [e3] m2) (trace_after false [e3] m2));
    try (vm_compute; reflexivity).
  apply Z.leb_le. reflexivity.
Defined.

(** *** What no turn of the loop does *)

Lemma count_eff_entry (m : JS unit) s :
  count_eff is_report (entry Uncaught m s).2 = count_eff is_report (effects (m s)).
Proof.
  rewrite entry_effects, count_eff_app.
  destruct (result (m s)) as [a|x].
  - change (count_eff is_report (@nil effect)) with 0%nat. apply Nat.add_0_r.
  - change (count_eff is_report [Uncaught x]) with 0%nat. apply Nat.add_0_r.
Qed.

(** Case analysis on everything a handler branches on. *)
Ltac js_cases :=
  unfold throw, createChannelRequest; cbn;
  repeat (case_match; unfold emit, ret, modify, throw in *; cbn in *; simplify_eq);
  cbn;
  repeat split;
  repeat match goal with
         | H : state_ ?c = _ |- context [state_ ?c] => rewrite H
         end;
  cbn; try lia; auto.

Lemma connect_reports sx now path m :
  (count_eff is_report (effects (connect sx now path m)) <= 1)%nat.
Proof. destruct m as [c rs nr pr]. js_eval. js_cases. Qed.

Lemma onRequestData_reports sx now req responseText m :
  (count_eff is_report (effects (onRequestData sx now req responseText m)) <= 1)%nat.
Proof. destruct m as [c rs nr pr]. js_eval. js_cases. Qed.

Lemma onRequestComplete_turn sx req m :
  (count_eff is_report (effects (onRequestComplete sx req m)) <= 1)%nat /\
  (rank (state_ (self m)) <= rank (state_ (self (final (onRequestComplete sx req m)))))%nat.
Proof. destruct m as [c rs nr pr]. js_eval. js_cases. Qed.

Lemma checkBlockedCallback__turn sx succeeded m :
  (count_eff is_report (effects (checkBlockedCallback_ sx succeeded m)) <= 1)%nat /\
  (rank (state_ (self m)) <=
   rank (state_ (self (final (checkBlockedCallback_ sx succeeded m)))))%nat.
Proof.
  destruct m as [c rs nr pr]. js_eval. js_cases.
  all: destruct (state_ c) as [[| |]|]; cbn; lia.
Qed.

Lemma abort_reports m :
  count_eff is_report (effects (abort m)) = 0%nat.
Proof. destruct m as [c rs nr pr]. js_eval. js_cases. Qed.

(** X16.  No turn of the loop reports to the owner more than once:
    whatever the event and the state, a handler calls at most one of
    [testConnectionFinished], [testConnectionFailure] and
    [testConnectionBlocked], once. *)
Theorem at_most_one_report_per_turn sx e m m' l :
  step sx e m = Some (m', l) ->
  (count_eff is_report l <= 1)%nat.
Proof.
  intros Hs. destruct e; unfold step in Hs.
  - apply Some_pair in Hs as [_ ->]. rewrite count_eff_entry. apply connect_reports.
  - apply Some_pair in Hs as [_ ->]. rewrite count_eff_entry, abort_reports. lia.
  - apply Some_pair in Hs as [_ ->]. cbn. lia.
  - apply Some_pair in Hs as [_ ->]. cbn. lia.
  - destruct (live m req); [|discriminate].
    apply Some_pair in Hs as [_ ->]. rewrite count_eff_entry, set_requests_then.
    apply onRequestData_reports.
  - destruct (live m req); [|discriminate].
    apply Some_pair in Hs as [_ ->]. rewrite count_eff_entry, set_requests_then.
    apply onRequestComplete_turn.
  - destruct (probes m) as [|n]; [discriminate|].
    apply Some_pair in Hs as [_ ->]. rewrite count_eff_entry.
    unfold bind at 1, modify. cbn.
    match goal with
    | |- context [checkBlockedCallback_ sx succeeded ?m1] =>
        pose proof (proj1 (checkBlockedCallback__turn sx succeeded m1)) as Hcb
    end.
    unfold effects in *.
    destruct (checkBlockedCallback_ sx succeeded _) as [[[a|x] m2] l2]; exact Hcb.
Qed.

Lemma at_most_one_report_per_turn_witness :
  let m := machine_after true stage1_started (start (owner None None) parser) in
  (count_eff is_report (trace_after true [RequestData 10 0 200 EmptyString] m) <= 1)%nat.
Proof.
  intros m.
  apply (at_most_one_report_per_turn true (RequestData 10 0 200 EmptyString) m
           (machine_after true [RequestData 10 0 200 EmptyString] m)).
  vm_compute. reflexivity.
Defined.

(** X17.  Apart from a new call of [connect], no turn of the loop takes
    the state machine backwards: the state moves along
    unset, INIT, CHECKING_BLOCKED, CONNECTION_TESTING or stays. *)
Theorem state_never_goes_back sx e m m' l :
  (forall now path, e <> CallConnect now path) ->
  step sx e m = Some (m', l) ->
  (rank (state_ (self m)) <= rank (state_ (self m')))%nat.
Proof.
  intros Hne Hs. destruct e; unfold step in Hs.
  - exfalso. apply (Hne now path). reflexivity.
  - apply Some_pair in Hs as [-> _]. rewrite entry_final, abort_state. lia.
  - apply Some_pair in Hs as [-> _]. cbn. lia.
  - apply Some_pair in Hs as [-> _]. cbn. lia.
  - destruct (live m req); [|discriminate].
    apply Some_pair in Hs as [-> _]. rewrite entry_final, set_requests_then.
    rewrite onRequestData_state. cbn. lia.
  - destruct (live m req); [|discriminate].
    apply Some_pair in Hs as [-> _]. rewrite entry_final, set_requests_then.
    match goal with
    | |- context [onRequestComplete sx req ?m1] =>
        apply (proj2 (onRequestComplete_turn sx req m1))
    end.
  - destruct (probes m) as [|n]; [discriminate|].
    apply Some_pair in Hs as [-> _]. rewrite entry_final.
    unfold bind at 1, modify. cbn.
    match goal with
    | |- context [checkBlockedCallback_ sx succeeded ?m1] =>
        pose proof (proj2 (checkBlockedCallback__turn sx succeeded m1)) as Hcb
    end.
    unfold final in *. cbn [self] in Hcb.
    destruct (checkBlockedCallback_ sx succeeded _) as [[[a|x] m2] l2]; exact Hcb.
Qed.

Lemma state_never_goes_back_witness :
  let m := machine_after true stage1_blocked (start (owner None None) blocking_parser) in
  (rank (state_ (self m)) <=
   rank (state_ (self (machine_after true [RequestComplete 0 200 true None] m))))%nat.
Proof.
  intros m.
  apply (state_never_goes_back true (RequestComplete 0 200 true None) m
           (machine_after true [RequestComplete 0 200 true None] m)
           (trace_after true [RequestComplete 0 200 true None] m));
    [discriminate | vm_compute; reflexivity].
Defined.

(** *** Aborting *)

(** X18.  [abort] cancels the request the channel holds, if any, forgets
    it and resets the status code to -1, but leaves the state of the
    state machine where it was; a second [abort] does nothing.  A
    completion that reaches the handler after an abort finds no request:
    it throws a TypeError and reports nothing. *)
Theorem abort_forgets_request_keeps_state sx req m :
  let out := abort m in
  result out = Ret tt /\
  request_ (self (final out)) = None /\
  lastStatusCode_ (self (final out)) = -1 /\
  state_ (self (final out)) = state_ (self m) /\
  effects out = match request_ (self m) with
                | Some r => [Cancel r]
                | None => []
                end /\
  requests (final out) = match request_ (self m) with
                         | Some r => alter cancelled r (requests m)
                         | None => requests m
                         end /\
  abort (final out) = (Ret tt, final out, []) /\
  onRequestComplete sx req (final out) =
    (Throw (TypeError "this.request_ is null"), final out, []).
Proof.
  destruct m as [c rs nr pr]. destruct c. js_eval. unfold throw.
  destruct request_0; cbn; repeat split; reflexivity.
Qed.

(** *** Data outside the two stages *)

(** X19.  Data that arrives while the state is unset or CHECKING_BLOCKED
    is ignored: the handler records the status code of the request and
    does nothing else. *)
Theorem data_outside_stages_ignored sx now req rq responseText m :
  state_ (self m) = None \/ state_ (self m) = Some CHECKING_BLOCKED ->
  requests m !! req = Some rq ->
  onRequestData sx now req responseText m =
    (Ret tt,
     mkMachine (set_lastStatusCode_ (getLastStatusCode rq) (self m))
       (requests m) (next_request m) (probes m),
     []).
Proof.
  intros Hst Hrq. destruct m as [c rs nr pr]. cbn in *.
  js_eval. rewrite Hrq. cbn. destruct Hst as [-> | ->]; reflexivity.
Qed.

Lemma data_outside_stages_ignored_witness :
  let m := machine_after true (stage1_blocked ++ [RequestComplete 0 200 true None])
             (start (owner None None) blocking_parser) in
  onRequestData true 50 0 "late" m =
    (Ret tt,
     mkMachine (set_lastStatusCode_ 200 (self m))
       (requests m) (next_request m) (probes m),
     []).
Proof.
  intros m.
  apply (data_outside_stages_ignored true 50 0 (mkChannelRequest 200 true None true)
           "late" m); [right|]; vm_compute; reflexivity.
Defined.

End BrowserTestChannelFacts.

(** * Properties of goog.net.IframeLoadMonitor *)

Module IframeLoadMonitorFacts.
Import IframeLoadMonitor.

Local Open Scope js_scope.

(** The helper swallows every exception: it returns what can be read of
    the iframe, changes nothing and calls nothing. *)
Lemma isLoadedHelper__answer s :
  isLoadedHelper_ s = (Ret (looks_loaded s), s, []).
Proof.
  destruct s as [[ifr hc il k iv] w].
  unfold isLoadedHelper_, looks_loaded, try_catch, getFrameContentDocument_body,
    this, bind, get, ret, throw. cbn.
  destruct ifr as [i|]; cbn; [|reflexivity].
  destruct (frames w !! i) as [[|[b|]]|]; cbn; destruct hc; reflexivity.
Qed.

Lemma handleLoad__eq s :
  handleLoad_ s =
    if looks_loaded s
    then (Ret tt, loaded_state s,
          match intervalId_ (mon s) with
          | Some id => [ClearInterval id]
          | None => []
          end ++ [UnlistenByKey (onloadListenerKey_ (mon s)); DispatchEvent LOAD_EVENT])
    else (Ret tt, s, []).
Proof.
  unfold handleLoad_. unfold bind at 1. rewrite isLoadedHelper__answer.
  destruct (looks_loaded s); [|reflexivity].
  destruct s as [[ifr hc il k iv] [fs ls nk ivs ni]].
  destruct iv, k; reflexivity.
Qed.

Lemma disposeInternal_eq s :
  disposeInternal s =
    (Ret tt, disposed_state s,
     match intervalId_ (mon s) with
     | Some id => [ClearInterval id]
     | None => []
     end ++ [UnlistenByKey (onloadListenerKey_ (mon s)); SuperDisposeInternal]).
Proof.
  destruct s as [[ifr hc il k iv] [fs ls nk ivs ni]].
  destruct iv, k; reflexivity.
Qed.

Lemma step_handler a s :
  is_handler a = true ->
  step a s = None \/ step a s = Some (entry Uncaught handleLoad_ s).
Proof.
  destruct a; try discriminate; intros _; cbn; case_bool_decide; auto.
Qed.

Lemma entry_handleLoad_ s :
  entry Uncaught handleLoad_ s =
    if looks_loaded s
    then (loaded_state s,
          match intervalId_ (mon s) with
          | Some id => [ClearInterval id]
          | None => []
          end ++ [UnlistenByKey (onloadListenerKey_ (mon s)); DispatchEvent LOAD_EVENT])
    else (s, []).
Proof.
  unfold entry. rewrite handleLoad__eq. destruct (looks_loaded s); reflexivity.
Qed.

Lemma entry_disposeInternal s :
  entry Uncaught disposeInternal s =
    (disposed_state s,
     match intervalId_ (mon s) with
     | Some id => [ClearInterval id]
     | None => []
     end ++ [UnlistenByKey (onloadListenerKey_ (mon s)); SuperDisposeInternal]).
Proof. unfold entry. rewrite disposeInternal_eq. reflexivity. Qed.

Lemma waiting_not_idle s : waiting s -> ~ idle s.
Proof.
  intros (_ & key & id & _ & Hi & _ & _) (Hn & _). congruence.
Qed.

Lemma loaded_state_idle s :
  waiting s \/ idle s -> idle (loaded_state s) /\ isLoaded_ (mon (loaded_state s)) = true.
Proof.
  destruct s as [[ifr hc il k iv] [fs ls nk ivs ni]].
  intros [(_ & key & id & Hk & Hi & Hl & Hv) | (Hi & Hl & Hv)]; cbn in *; subst;
    unfold idle; cbn; (split; [|reflexivity]).
  - split; [reflexivity|]. split; apply difference_diag_L.
  - split; [reflexivity|]. destruct k; split; try reflexivity; apply empty_difference_L.
Qed.

Lemma disposed_state_idle s :
  waiting s \/ idle s ->
  idle (disposed_state s) /\ iframe_ (mon (disposed_state s)) = None /\
  isLoaded_ (mon (disposed_state s)) = isLoaded_ (mon s).
Proof.
  intros H. destruct (loaded_state_idle s H) as [(_ & Hl & Hv) _].
  unfold idle, disposed_state. cbn. auto.
Qed.

(** One turn from a monitor that is idle: no handler can run, nothing is
    dispatched, the monitor stays idle and its answer stays. *)
Lemma step_idle a s s' l :
  idle s -> step a s = Some (s', l) ->
  idle s' /\ is_handler a = false /\ count_eff is_ifload l = 0%nat /\
  count_eff is_Uncaught l = 0%nat /\
  isLoaded_ (mon s') = isLoaded_ (mon s) /\
  (iframe_ (mon s) = None -> iframe_ (mon s') = None).
Proof.
  intros Hi Hs. pose proof Hi as (Hn & Hl & Hv).
  destruct a; cbn in Hs.
  - rewrite Hl in Hs. case_bool_decide; [set_solver|discriminate].
  - rewrite Hv in Hs. case_bool_decide; [set_solver|discriminate].
  - injection Hs as <- <-. cbn. auto 10.
  - rewrite entry_disposeInternal in Hs. injection Hs as <- <-.
    destruct (disposed_state_idle s (or_intror Hi)) as (H1 & H2 & H3).
    rewrite Hn. cbn. auto 10.
Qed.

Lemma run_idle acts : forall s s' l,
  idle s -> run acts s = Some (s', l) ->
  idle s' /\ Forall (fun a => is_handler a = false) acts /\
  count_eff is_ifload l = 0%nat /\ count_eff is_Uncaught l = 0%nat /\
  isLoaded_ (mon s') = isLoaded_ (mon s) /\
  (iframe_ (mon s) = None -> iframe_ (mon s') = None).
Proof.
  induction acts as [|a acts IH]; intros s s' l Hi Hr.
  - injection Hr as <- <-. auto 10.
  - apply run_loop_cons in Hr as (s1 & l1 & l2 & Ha & Hr & ->).
    destruct (step_idle _ _ _ _ Hi Ha) as (Hi1 & Hh & Hc & Hu & Hl & Hf).
    destruct (IH _ _ _ Hi1 Hr) as (Hi2 & Hh2 & Hc2 & Hu2 & Hl2 & Hf2).
    rewrite !count_eff_app, Hc, Hc2, Hu, Hu2, Hl2, Hl. auto 10.
Qed.

(** One turn from a monitor that waits: it goes on waiting and dispatches
    nothing, or it stops, and has dispatched 'ifload' exactly if it is
    loaded now. *)
Lemma step_waiting a s s' l :
  waiting s -> iframe_ (mon s) <> None -> step a s = Some (s', l) ->
  count_eff is_Uncaught l = 0%nat /\
  ((waiting s' /\ iframe_ (mon s') <> None /\ count_eff is_ifload l = 0%nat) \/
   (idle s' /\ stopped s' = true /\
    count_eff is_ifload l = if isLoaded_ (mon s') then 1%nat else 0%nat)).
Proof.
  intros Hw Hf Hs. pose proof Hw as (Hil & key & id & Hk & Hi & Hl & Hv).
  assert (Hh : forall s1 l1, entry Uncaught handleLoad_ s = (s1, l1) ->
            count_eff is_Uncaught l1 = 0%nat /\
            ((waiting s1 /\ iframe_ (mon s1) <> None /\ count_eff is_ifload l1 = 0%nat) \/
             (idle s1 /\ stopped s1 = true /\
              count_eff is_ifload l1 = if isLoaded_ (mon s1) then 1%nat else 0%nat))).
  { intros s1 l1. rewrite entry_handleLoad_. destruct (looks_loaded s).
    - intros [= <- <-]. destruct (loaded_state_idle s (or_introl Hw)) as [H1 H2].
      rewrite Hi. split; [reflexivity|]. right. split; [exact H1|].
      unfold stopped. rewrite H2. auto.
    - intros [= <- <-]. split; [reflexivity|]. left. auto. }
  destruct a; cbn in Hs.
  - case_bool_decide; [|discriminate]. injection Hs as Hs. apply Hh, Hs.
  - case_bool_decide; [|discriminate]. injection Hs as Hs. apply Hh, Hs.
  - injection Hs as <- <-. split; [reflexivity|]. left.
    split; [|auto]. split; [exact Hil|]. exists key, id. auto.
  - rewrite entry_disposeInternal in Hs. injection Hs as <- <-.
    destruct (disposed_state_idle s (or_introl Hw)) as (H1 & H2 & H3).
    rewrite Hi. split; [reflexivity|]. right. split; [exact H1|].
    unfold stopped. rewrite H3, Hil, H2. cbn. auto.
Qed.

Lemma run_waiting acts : forall s s' l,
  waiting s -> iframe_ (mon s) <> None -> run acts s = Some (s', l) ->
  count_eff is_Uncaught l = 0%nat /\
  ((waiting s' /\ iframe_ (mon s') <> None /\ count_eff is_ifload l = 0%nat) \/
   (idle s' /\ stopped s' = true /\
    count_eff is_ifload l = if isLoaded_ (mon s') then 1%nat else 0%nat)).
Proof.
  induction acts as [|a acts IH]; intros s s' l Hw Hf Hr.
  - injection Hr as <- <-. split; [reflexivity|]. left. auto.
  - apply run_loop_cons in Hr as (s1 & l1 & l2 & Ha & Hr & ->).
    destruct (step_waiting _ _ _ _ Hw Hf Ha) as (Hu & [(Hw1 & Hf1 & Hc) | (Hi1 & Hst & Hc)]).
    + destruct (IH _ _ _ Hw1 Hf1 Hr) as (Hu2 & H).
      rewrite !count_eff_app, Hu, Hu2, Hc. split; [reflexivity|]. exact H.
    + destruct (run_idle _ _ _ _ Hi1 Hr) as (Hi2 & _ & Hc2 & Hu2 & Hl2 & Hf2).
      rewrite !count_eff_app, Hu, Hu2, Hc, Hc2, Hl2. split; [reflexivity|].
      right. split; [exact Hi2|]. split; [|apply Nat.add_0_r].
      unfold stopped in *. rewrite Hl2.
      destruct (isLoaded_ (mon s1)); [reflexivity|]. cbn in *.
      case_bool_decide as Hd; [discriminate|].
      case_bool_decide as Hd'; [|reflexivity].
      exfalso. apply Hd. destruct (iframe_ (mon s1)) eqn:E; [eauto|].
      rewrite Hf2 in Hd' by reflexivity. destruct Hd' as [? ?]; discriminate.
Qed.

Lemma entry_constructor iframe s :
  entry Uncaught (constructor iframe) s =
    if looks_loaded s
    then (mkSys (set_isLoaded_ true (mon s)) (win s), [])
    else (mkSys
            (mkMonitor (iframe_ (mon s)) (hasContent_ (mon s)) false
               (Some (next_key (win s))) (Some (next_interval (win s))))
            (mkWindow (frames (win s))
               ({[next_key (win s)]} ∪ listeners (win s)) (S (next_key (win s)))
               ({[next_interval (win s)]} ∪ intervals (win s))
               (Pos.succ (next_interval (win s)))),
          [Listen iframe LOAD (next_key (win s));
           SetInterval (next_interval (win s)) POLL_INTERVAL_MS_]).
Proof.
  unfold entry, constructor. unfold bind at 1. rewrite isLoadedHelper__answer.
  destruct (looks_loaded s); reflexivity.
Qed.

(** What the constructor leaves. *)
Lemma new_state iframe opt_hasContent fs :
  iframe_ (mon (new iframe opt_hasContent (init_window fs)).1) = Some iframe /\
  count_eff is_ifload (new iframe opt_hasContent (init_window fs)).2 = 0%nat /\
  count_eff is_Uncaught (new iframe opt_hasContent (init_window fs)).2 = 0%nat /\
  if isLoaded_ (mon (new iframe opt_hasContent (init_window fs)).1)
  then idle (new iframe opt_hasContent (init_window fs)).1
  else waiting (new iframe opt_hasContent (init_window fs)).1.
Proof.
  unfold new. rewrite entry_constructor.
  destruct (looks_loaded _); cbn.
  - unfold idle. cbn. repeat split.
  - unfold waiting. cbn. repeat split.
    exists 0%nat, 1%positive. repeat split; set_solver.
Qed.

Lemma reachable_waiting_or_idle iframe opt_hasContent fs acts s l :
  run acts (new iframe opt_hasContent (init_window fs)).1 = Some (s, l) ->
  waiting s \/ idle s.
Proof.
  intros Hr.
  destruct (new_state iframe opt_hasContent fs) as (Hf & _ & _ & Hst).
  destruct (isLoaded_ (mon (new iframe opt_hasContent (init_window fs)).1)).
  - right. apply (run_idle _ _ _ _ Hst Hr).
  - assert (Hn : iframe_ (mon (new iframe opt_hasContent (init_window fs)).1) <> None)
      by (rewrite Hf; discriminate).
    destruct (run_waiting _ _ _ _ Hst Hn Hr) as (_ & [(Hw & _) | (Hi & _)]); auto.
Qed.

(** *** When 'ifload' is dispatched *)

(** X20.  Until the iframe looks loaded the handler of the load event
    and of the poll does nothing at all.  Once it looks loaded (with
    [hasContent_]: once its body has a first child), the first call of
    the handler clears the interval, removes the listener, dispatches
    'ifload' and leaves the monitor loaded, with nothing registered. *)
Theorem first_loaded_poll_dispatches a s s' l :
  waiting s -> is_handler a = true -> step a s = Some (s', l) ->
  if looks_loaded s
  then exists key id,
         onloadListenerKey_ (mon s) = Some key /\ intervalId_ (mon s) = Some id /\
         l = [ClearInterval id; UnlistenByKey (Some key); DispatchEvent LOAD_EVENT] /\
         isLoaded_ (mon s') = true /\ onloadListenerKey_ (mon s') = None /\ idle s'
  else s' = s /\ l = [].
Proof.
  intros Hw Hh Hs. destruct (step_handler a s Hh) as [E|E]; rewrite E in Hs; [discriminate|].
  rewrite entry_handleLoad_ in Hs. destruct (looks_loaded s).
  - injection Hs as <- <-. pose proof Hw as (_ & key & id & Hk & Hi & _).
    exists key, id. rewrite Hk, Hi.
    destruct (loaded_state_idle s (or_introl Hw)) as [H1 H2]. auto 10.
  - injection Hs as <- <-. auto.
Qed.

Lemma first_loaded_poll_dispatches_witness :
  let s := state_after [FrameChanges 7 (Body (Some true))] (new 7 (Some true) page) in
  exists key id,
    onloadListenerKey_ (mon s) = Some key /\ intervalId_ (mon s) = Some id /\
    trace_of [IntervalFires 1] (s, []) =
      [ClearInterval id; UnlistenByKey (Some key); DispatchEvent LOAD_EVENT] /\
    isLoaded_ (mon (state_after [IntervalFires 1] (s, []))) = true /\
    onloadListenerKey_ (mon (state_after [IntervalFires 1] (s, []))) = None /\
    idle (state_after [IntervalFires 1] (s, [])).
Proof.
  intros s.
  assert (Hw : waiting s).
  { split; [reflexivity|]. exists 0%nat, 1%positive. repeat split; vm_compute; reflexivity. }
  assert (Hs : step (IntervalFires 1) s =
               Some (state_after [IntervalFires 1] (s, []),
                     trace_of [IntervalFires 1] (s, []))).
  { vm_compute. reflexivity. }
  exact (first_loaded_poll_dispatches (IntervalFires 1) s _ _ Hw eq_refl Hs).
Defined.

(** X21.  In every run of a monitor, from its construction on: no
    exception escapes a handler, and 'ifload' is dispatched exactly once
    if the iframe was not loaded at construction and [isLoaded()] answers
    true at the end, and never otherwise.  An answer true at construction
    stays. *)
Theorem ifload_dispatched_at_most_once iframe opt_hasContent fs acts s l :
  run acts (new iframe opt_hasContent (init_window fs)).1 = Some (s, l) ->
  count_eff is_Uncaught ((new iframe opt_hasContent (init_window fs)).2 ++ l) = 0%nat /\
  count_eff is_ifload ((new iframe opt_hasContent (init_window fs)).2 ++ l) =
    (if isLoaded_ (mon (new iframe opt_hasContent (init_window fs)).1) then 0%nat
     else if isLoaded_ (mon s) then 1%nat else 0%nat) /\
  (isLoaded_ (mon (new iframe opt_hasContent (init_window fs)).1) = true ->
   isLoaded_ (mon s) = true).
Proof.
  intros Hr.
  destruct (new_state iframe opt_hasContent fs) as (Hf & Hc & Hu & Hst).
  rewrite !count_eff_app, Hc, Hu.
  destruct (isLoaded_ (mon (new iframe opt_hasContent (init_window fs)).1)) eqn:E.
  - destruct (run_idle _ _ _ _ Hst Hr) as (_ & _ & Hc2 & Hu2 & Hl & _).
    rewrite Hc2, Hu2, Hl, E. auto.
  - assert (Hn : iframe_ (mon (new iframe opt_hasContent (init_window fs)).1) <> None)
      by (rewrite Hf; discriminate).
    destruct (run_waiting _ _ _ _ Hst Hn Hr) as (Hu2 & [((Hl & _) & _ & Hc2) | (_ & _ & Hc2)]).
    + rewrite Hu2, Hc2, Hl. split; [reflexivity|]. split; [reflexivity|discriminate].
    + rewrite Hu2, Hc2. split; [reflexivity|]. split; [reflexivity|discriminate].
Qed.

Lemma ifload_dispatched_at_most_once_witness :
  count_eff is_Uncaught (trace_of loads_late (new 7 (Some true) page)) = 0%nat /\
  count_eff is_ifload (trace_of loads_late (new 7 (Some true) page)) = 1%nat.
Proof.
  assert (Hr : run loads_late (new 7 (Some true) page).1 =
               Some (state_after loads_late (new 7 (Some true) page),
                     skipn 2 (trace_of loads_late (new 7 (Some true) page))))
    by (vm_compute; reflexivity).
  destruct (ifload_dispatched_at_most_once 7 (Some true) {[ 7%nat := Unreadable ]}
              loads_late _ _ Hr) as (Hu & Hc & _).
  split.
  - exact Hu.
  - exact Hc.
Defined.

(** X22.  At the end of every run the monitor either still waits (it is
    neither loaded nor disposed of, and exactly its one listener and its
    one interval are registered) or it has stopped and nothing of it is
    registered: it listens and polls exactly until it is loaded or
    disposed of. *)
Theorem listens_and_polls_until_stopped iframe opt_hasContent fs acts s l :
  run acts (new iframe opt_hasContent (init_window fs)).1 = Some (s, l) ->
  if stopped s then idle s else waiting s.
Proof.
  intros Hr.
  destruct (new_state iframe opt_hasContent fs) as (Hf & _ & _ & Hst).
  destruct (isLoaded_ (mon (new iframe opt_hasContent (init_window fs)).1)) eqn:E.
  - destruct (run_idle _ _ _ _ Hst Hr) as (Hi & _ & _ & _ & Hl & _).
    unfold stopped. rewrite Hl, E. exact Hi.
  - assert (Hn : iframe_ (mon (new iframe opt_hasContent (init_window fs)).1) <> None)
      by (rewrite Hf; discriminate).
    destruct (run_waiting _ _ _ _ Hst Hn Hr) as (_ & [(Hw & Hn' & _) | (Hi & Hs & _)]).
    + pose proof Hw as (Hl & _). unfold stopped. rewrite Hl. cbn.
      case_bool_decide as Hd; [exact Hw|].
      exfalso. apply Hd. destruct (iframe_ (mon s)); [eauto|congruence].
    + rewrite Hs. exact Hi.
Qed.

Lemma listens_and_polls_until_stopped_witness :
  waiting (state_after (firstn 3 loads_late) (new 7 (Some true) page)) /\
  idle (state_after loads_late (new 7 (Some true) page)).
Proof.
  split.
  - assert (Hr : run (firstn 3 loads_late) (new 7 (Some true) page).1 =
                 Some (state_after (firstn 3 loads_late) (new 7 (Some true) page), []))
      by (vm_compute; reflexivity).
    exact (listens_and_polls_until_stopped 7 (Some true) {[ 7%nat := Unreadable ]}
             (firstn 3 loads_late) _ _ Hr).
  - assert (Hr : run loads_late (new 7 (Some true) page).1 =
                 Some (state_after loads_late (new 7 (Some true) page),
                       skipn 2 (trace_of loads_late (new 7 (Some true) page))))
      by (vm_compute; reflexivity).
    exact (listens_and_polls_until_stopped 7 (Some true) {[ 7%nat := Unreadable ]}
             loads_late _ _ Hr).
Defined.

(** X23.  After [disposeInternal] nothing of the monitor runs any more:
    in every continuation no load listener and no interval of it can
    fire, 'ifload' is not dispatched (not by the disposal either), and
    [isLoaded()] keeps the answer it had when the monitor was disposed
    of, whatever becomes of the iframe. *)
Theorem nothing_after_dispose iframe opt_hasContent fs acts1 acts2 s1 l1 s l :
  run acts1 (new iframe opt_hasContent (init_window fs)).1 = Some (s1, l1) ->
  run (CallDispose :: acts2) s1 = Some (s, l) ->
  Forall (fun a => is_handler a = false) acts2 /\
  count_eff is_ifload l = 0%nat /\
  isLoaded_ (mon s) = isLoaded_ (mon s1) /\
  iframe_ (mon s) = None /\ idle s.
Proof.
  intros Hr1 Hr2.
  pose proof (reachable_waiting_or_idle iframe opt_hasContent fs acts1 s1 l1 Hr1) as Hwi.
  apply run_loop_cons in Hr2 as (s2 & l2 & l3 & Hd & Hr2 & ->).
  cbn in Hd. rewrite entry_disposeInternal in Hd. injection Hd as <- <-.
  destruct (disposed_state_idle s1 Hwi) as (Hi & Hf & Hl).
  destruct (run_idle _ _ _ _ Hi Hr2) as (Hi2 & Hh & Hc & _ & Hl2 & Hf2).
  rewrite count_eff_app, Hc, Hl2, Hl.
  split; [exact Hh|]. split; [|auto].
  destruct (intervalId_ (mon s1)); reflexivity.
Qed.

Lemma nothing_after_dispose_witness :
  let s1 := state_after (firstn 3 loads_late) (new 7 (Some true) page) in
  let s := state_after (CallDispose :: skipn 5 loads_late) (s1, []) in
  count_eff is_ifload (trace_of (CallDispose :: skipn 5 loads_late) (s1, [])) = 0%nat /\
  isLoaded_ (mon s) = isLoaded_ (mon s1) /\ iframe_ (mon s) = None /\ idle s.
Proof.
  intros s1 s.
  assert (Hr1 : run (firstn 3 loads_late) (new 7 (Some true) page).1 = Some (s1, []))
    by (vm_compute; reflexivity).
  assert (Hr2 : run (CallDispose :: skipn 5 loads_late) s1 =
                Some (s, trace_of (CallDispose :: skipn 5 loads_late) (s1, [])))
    by (vm_compute; reflexivity).
  exact (proj2 (nothing_after_dispose 7 (Some true) {[ 7%nat := Unreadable ]}
                  _ _ _ _ _ _ Hr1 Hr2)).
Defined.

End IframeLoadMonitorFacts.
